(** * tsfpga: the documentation build script

    A shallow embedding of [tools/build_docs.py], with the properties of
    the release-notes assembly, the coverage badge, the command-line flag
    and the other steps of the build.

    Conventions of the embedding.
    - A Python [str] is a [string]; each character stands for one code
      point below 256, so [String.length] is Python's [len] and the
      comparison of [String_as_OT] is Python's comparison of [str].
    - A Python [int] is a [Z] (or an [N] where it cannot be negative), a
      Python [float] is a binary64 [float] of the kernel.
    - A function that raises returns [Raise e]; the state of the world at
      the point of the exception is kept, as in Python.
    - What lives outside the script (git, the clock's time zone, child
      processes, the badge renderer, helper functions of the [tsfpga]
      package) is a field of the environment [Env]. *)

From Stdlib Require Import ZArith NArith List String Ascii Floats.
From Stdlib Require Import Sorting.Sorted Sorting.Permutation Lia.
From Stdlib Require Import DecimalString OrdersEx.
From stdpp Require Import base option list gmap strings sorting.

Set Warnings "-inexact-float".
Local Open Scope string_scope.
Local Open Scope list_scope.

(** ** Python strings *)

Module Str.

(** [a < b] on [str]: lexicographic on code points. *)
Definition ltb (a b : string) : bool :=
  match String_as_OT.compare a b with Lt => true | _ => false end.

Definition lt (a b : string) : Prop := String_as_OT.compare a b = Lt.

(** [s.rfind(".")]: the index of the last dot, [None] for Python's -1. *)
Fixpoint rfind_dot (s : string) : option nat :=
  match s with
  | EmptyString => None
  | String c s' =>
      match rfind_dot s' with
      | Some i => Some (S i)
      | None => if Ascii.eqb c "." then Some 0%nat else None
      end
  end.

(** [s.endswith(suffix)]. *)
Definition endswith (s suffix : string) : bool :=
  let n := String.length s in
  let k := String.length suffix in
  (k <=? n)%nat && String.eqb (substring (n - k) k s) suffix.

(** [c * n] for a one-character string [c]. *)
Fixpoint repeat (c : ascii) (n : nat) : string :=
  match n with
  | O => EmptyString
  | S n' => String c (repeat c n')
  end.

(** [s.lower()] on the characters A to Z; the script only lowers a date,
    which is made of digits, spaces and an English month name. *)
Definition lower_char (c : ascii) : ascii :=
  let n := nat_of_ascii c in
  if (65 <=? n)%nat && (n <=? 90)%nat then ascii_of_nat (n + 32) else c.

Fixpoint lower (s : string) : string :=
  match s with
  | EmptyString => EmptyString
  | String c s' => String (lower_char c) (lower s')
  end.

(** [str(n)] for an [int]. *)
Definition of_N (n : N) : string := NilZero.string_of_uint (N.to_uint n).
Definition of_Z (z : Z) : string := NilZero.string_of_int (Z.to_int z).

End Str.

(** ** pathlib

    Every path the release-notes code compares, sorts or takes the stem of
    is an entry of the one directory [TSFPGA_DOC / "release_notes"], so
    such a path is given by its final component, the file name: two paths
    with the same parent are equal when their names are, and are ordered as
    their names (pathlib compares the lists of parts). *)

Module Path.

(** [PurePath.stem]: the name without its last suffix. *)
Definition stem (name : string) : string :=
  match Str.rfind_dot name with
  | Some i =>
      if (0 <? i)%nat && (i <? String.length name - 1)%nat
      then substring 0 i name
      else name
  | None => name
  end.

(** Other paths are written in full; [p / n] joins with a slash. *)
Definition join (p n : string) : string := p +:+ "/" +:+ n.

End Path.

Infix "//" := Path.join (at level 40, left associativity).

(** ** [list.sort(reverse=True)]

    Python's sort is stable; with [reverse=True] the result is in
    descending order and equal elements keep their order. The model is a
    stable insertion sort: [insert_desc x l] puts [x] before the first
    element that is smaller than [x]. [sort_reverse_unique] below shows
    that on distinct names no other arrangement is descending. *)

Fixpoint insert_desc (x : string) (l : list string) : list string :=
  match l with
  | [] => [x]
  | y :: l' => if Str.ltb x y then y :: insert_desc x l' else x :: l
  end.

Definition sort_reverse (l : list string) : list string :=
  foldr insert_desc [] l.


(** ** Exceptions, files, events and the environment *)

Inductive Exception :=
| AssertionError (msg : string)
| FileNotFoundError (path : string)
| CalledProcessError (cmd : list string)
| OverflowError
| ValueError
| ExternalError (what : string).

Inductive Result (A : Type) :=
| Ok (a : A)
| Raise (e : Exception).
Arguments Ok {A} a.
Arguments Raise {A} e.

(** [datetime]: the calendar fields the script reads. *)
Record datetime := { year : N; month : N; day : N }.

(** The keyword arguments of [pybadges.badge]; [None] is an argument that
    is not passed. *)
Record BadgeArgs := {
  left_text : string;
  right_text : string;
  left_color : option string;
  right_color : string;
  logo : option string;
  embed_logo : bool;
  left_link : option string;
  right_link : option string;
}.

(** The files the script reads and writes.
    - [release_notes_dir]: the entries of [TSFPGA_DOC / "release_notes"],
      file name and content, in the order in which the operating system
      enumerates them (the order [glob] yields them in).
    - [text_files]: every other text file, by its full path. The output of
      the release notes goes there: [TSFPGA_GENERATED] is not inside the
      release notes directory.
    - [python_coverage_xml]: [TSFPGA_GENERATED / "python_coverage.xml"];
      [None] when the file does not exist, otherwise the number that
      [float(root.attrib["line-rate"])] reads from it. *)
Record Files := {
  release_notes_dir : list (string * string);
  text_files : gmap string string;
  python_coverage_xml : option float;
}.

(** What the script does to the outside, in order. *)
Inductive Event :=
| EvDelete (path : string)
| EvCreateDirectory (path : string)
| EvCreateFile (path : string)
| EvCheckCall (cmd : list string) (cwd : option string)
| EvGitTag (ref : string)
| EvBadge (args : BadgeArgs)
| EvReadme
| EvCopyTree (src dst : string)
| EvPrint (text : string).

Record World := { files : Files; events : list Event }.

(** The environment: module constants of [tsfpga] and the behaviour of
    everything the script calls but does not define. An external call
    sees and changes the files; it cannot touch the record of events. *)
Record Env := {
  sys_executable : string;
  REPO_ROOT : string;
  TSFPGA_DOC : string;
  TSFPGA_GENERATED : string;
  TSFPGA_EXAMPLES : string;
  (** [Repo(REPO_ROOT).tag(ref).commit.committed_date] *)
  committed_date : string -> Result Z;
  (** [datetime.fromtimestamp], in the time zone of the machine *)
  fromtimestamp : Z -> Result datetime;
  (** [subprocess.check_call]: whether the exit code is zero *)
  run_process : list string -> option string -> Files -> bool * Files;
  (** [pybadges.badge] *)
  render_badge : BadgeArgs -> Result string;
  (** [tsfpga.about.get_readme_rst(include_website_link, verify)] *)
  readme_rst : bool -> bool -> Files -> Result string;
  (** [shutil.copytree] *)
  copy_tree : string -> string -> Files -> Result unit * Files;
  (** [tsfpga.system_utils.delete] and [create_directory] *)
  delete_path : string -> Files -> Files;
  make_directory : string -> Files -> Files;
}.

(** ** The monad of the script: state and exceptions *)

Definition M (A : Type) : Type := World -> Result A * World.

Definition ret {A} (a : A) : M A := fun w => (Ok a, w).

Definition bind {A B} (m : M A) (k : A -> M B) : M B :=
  fun w =>
    match m w with
    | (Ok a, w') => k a w'
    | (Raise e, w') => (Raise e, w')
    end.

Definition raise {A} (e : Exception) : M A := fun w => (Raise e, w).

(** [assert cond, msg] *)
Definition assert (cond : bool) (msg : string) : M unit :=
  if cond then ret tt else raise (AssertionError msg).

Definition lift {A} (r : Result A) : M A :=
  match r with
  | Ok a => ret a
  | Raise e => raise e
  end.

Definition get_files : M Files := fun w => (Ok (files w), w).

Definition set_files (f : Files) : M unit :=
  fun w => (Ok tt, {| files := f; events := events w |}).

Definition emit (ev : Event) : M unit :=
  fun w => (Ok tt, {| files := files w; events := events w ++ [ev] |}).

#[global] Instance M_ret : MRet M := @ret.
#[global] Instance M_bind : MBind M := fun A B k m => bind m k.

(** [for x in l: acc = body(x, acc)] with a body that may raise. *)
Fixpoint for_each {A B} (body : A -> B -> M B) (l : list A) (acc : B) : M B :=
  match l with
  | [] => ret acc
  | x :: l' => acc' ← body x acc; for_each body l' acc'
  end.

(** [[f(x) for x in l]] with an [f] that may raise. *)
Fixpoint comprehension {A B} (f : A -> M B) (l : list A) : M (list B) :=
  match l with
  | [] => ret []
  | x :: l' => y ← f x; ys ← comprehension f l'; ret (y :: ys)
  end.

(** ** [tools/build_docs.py] *)

Record Release := {
  release_notes_file : string;
  version : string;
  git_tag : string;
  date : string;
}.

(** The parsed command line: [argparse] sets [skip_coverage] to [True]
    when [--skip-coverage] is given and to [False] otherwise. *)
Record Args := { skip_coverage : bool }.

(** [%B]: the full month name, in the English locale. *)
Definition strftime_B (m : N) : string :=
  match m with
  | 1 => "January" | 2 => "February" | 3 => "March" | 4 => "April"
  | 5 => "May" | 6 => "June" | 7 => "July" | 8 => "August"
  | 9 => "September" | 10 => "October" | 11 => "November" | 12 => "December"
  | _ => ""
  end%N.

(** The content of the entry of a directory called [name], if there is
    one. *)
Fixpoint find_entry (name : string) (dir : list (string * string)) : option string :=
  match dir with
  | [] => None
  | (n, body) :: dir' => if String.eqb n name then Some body else find_entry name dir'
  end.

(** [int(round(x))] for a float: [round] goes to the nearest integer and
    to the even one on a tie; it raises on an infinity or a NaN. *)
Definition int_round (x : float) : Result Z :=
  match Prim2SF x with
  | S754_zero _ => Ok 0%Z
  | S754_infinity _ => Raise OverflowError
  | S754_nan => Raise ValueError
  | S754_finite s m e =>
      let v :=
        match e with
        | Z0 => Zpos m
        | Zpos p => (Zpos m * 2 ^ Zpos p)%Z
        | Zneg p =>
            let d := (2 ^ Zpos p)%Z in
            let q := (Zpos m / d)%Z in
            let r := (Zpos m mod d)%Z in
            match (2 * r ?= d)%Z with
            | Lt => q
            | Gt => (q + 1)%Z
            | Eq => if Z.even q then q else (q + 1)%Z
            end
        end in
      Ok (if s then (- v)%Z else v)
  end.

Section BuildDocs.

Context (env : Env).

Definition SPHINX_HTML : string := TSFPGA_GENERATED env // "sphinx_html".

(** *** Helpers of [tsfpga.system_utils] and of the libraries *)

(** Modelled from the spec: [tsfpga.system_utils.read_file] is not in
    the sources; it loads the raw document body of a note file and fails
    when the file is missing. It is only called on entries of the release
    notes directory, which are given by name. *)
Definition read_file (name : string) : M string :=
  fs ← get_files;
  match find_entry name (release_notes_dir fs) with
  | Some body => ret body
  | None => raise (FileNotFoundError name)
  end.

(** Modelled from the spec: [tsfpga.system_utils.create_file] is not in
    the sources; it produces the file at [path] with the given contents.
    It is only called on paths outside the release notes directory. *)
Definition create_file (path contents : string) : M unit :=
  fs ← get_files;
  set_files {| release_notes_dir := release_notes_dir fs;
               text_files := <[path := contents]> (text_files fs);
               python_coverage_xml := python_coverage_xml fs |};;
  emit (EvCreateFile path).

Definition delete (path : string) : M string :=
  emit (EvDelete path);;
  fs ← get_files;
  set_files (delete_path env path fs);;
  ret path.

Definition create_directory (path : string) : M string :=
  emit (EvCreateDirectory path);;
  fs ← get_files;
  set_files (make_directory env path fs);;
  ret path.

Definition check_call (cmd : list string) (cwd : option string) : M unit :=
  emit (EvCheckCall cmd cwd);;
  fs ← get_files;
  let '(exit_ok, fs') := run_process env cmd cwd fs in
  set_files fs';;
  if exit_ok then ret tt else raise (CalledProcessError cmd).

Definition badge (args : BadgeArgs) : M string :=
  emit (EvBadge args);;
  lift (render_badge env args).

Definition get_readme_rst (include_website_link verify : bool) : M string :=
  emit EvReadme;;
  fs ← get_files;
  lift (readme_rst env include_website_link verify fs).

Definition copytree (src dst : string) : M unit :=
  emit (EvCopyTree src dst);;
  fs ← get_files;
  let '(r, fs') := copy_tree env src dst fs in
  set_files fs';;
  lift r.

Definition path_exists (path : string) : M bool :=
  fs ← get_files;
  ret (bool_decide (is_Some (text_files fs !! path))).

Definition print (text : string) : M unit := emit (EvPrint text).

(** [release_notes_dir.glob("*.rst")]: the entries whose name ends in
    [.rst], in the order of the directory. *)
Definition glob_rst : M (list string) :=
  fs ← get_files;
  ret (filter (fun name => Str.endswith name ".rst" = true)
              (release_notes_dir fs).*1).

(** *** [class Release] *)

Definition get_git_date_from_tag (tag : string) : M string :=
  let ref := "refs/tags/" +:+ tag in
  emit (EvGitTag ref);;
  timestamp ← lift (committed_date env ref);
  time ← lift (fromtimestamp env timestamp);
  ret (Str.lower (Str.of_N (day time) +:+ " " +:+ strftime_B (month time)
                  +:+ " " +:+ Str.of_N (year time))).

(** [Release.__init__] *)
Definition Release_init (file : string) : M Release :=
  let stem := Path.stem file in
  if String.eqb stem "unreleased" then
    ret {| release_notes_file := file; version := "Unreleased";
           git_tag := "master"; date := "YYYY-MM-DD" |}
  else
    let tag := "v" +:+ stem in
    d ← get_git_date_from_tag tag;
    ret {| release_notes_file := file; version := stem;
           git_tag := tag; date := d |}.

(** *** [get_release_notes_files] *)

Definition unreleased_notes_file : string := "unreleased.rst".

(** The sorted list of note files: the versioned ones newest name
    first, after the unreleased one. *)
Definition release_notes_list (names : list string) : list string :=
  let release_notes := filter (fun f => f <> unreleased_notes_file) names in
  let release_notes := sort_reverse release_notes in
  unreleased_notes_file :: release_notes.

(** The second component of what the loop yields at [idx];
    [releases[idx + 1]] is in range when [idx] is not the last index
    ([previous_release_in_range]). *)
Definition previous_release_git_tag (releases : list Release) (idx : nat)
  : option string :=
  if (Z.of_nat idx =? Z.of_nat (length releases) - 1)%Z then None
  else git_tag <$> releases !! (idx + 1)%nat.

(** The generator builds every [Release] before its first [yield], and
    does nothing else between two [yield]s, so it is the list of what it
    yields. *)
Definition get_release_notes_files : M (list (Release * option string)) :=
  names ← glob_rst;
  releases ← comprehension Release_init (release_notes_list names);
  ret (imap (fun idx release => (release, previous_release_git_tag releases idx))
            releases).

(** *** [generate_release_notes] *)

Definition diff_url (previous_release_git_tag : string) (release : Release) : string :=
  "https://gitlab.com/tsfpga/tsfpga/-/compare/"
  +:+ previous_release_git_tag +:+ "..." +:+ git_tag release.

Definition diff_line (previous_release_git_tag : string) (release : Release) : string :=
  "`Changes since previous release <"
  +:+ diff_url previous_release_git_tag release +:+ ">`__" +:+ "
".

Definition newline : string := "
".

(** One turn of the loop: what it appends to [rst]. *)
Definition release_notes_step (entry : Release * option string) (rst : string)
  : M string :=
  let '(release, previous) := entry in
  let heading := version release +:+ " (" +:+ date release +:+ ")" in
  let rst := rst +:+ (heading +:+ newline) in
  let rst := rst +:+ (Str.repeat "-" (String.length heading) +:+ newline) in
  let rst := rst +:+ newline in
  let rst :=
    match previous with
    | Some tag => rst +:+ diff_line tag release
    | None => rst
    end in
  let rst := rst +:+ newline in
  body ← read_file (release_notes_file release);
  let rst := rst +:+ body in
  let rst := rst +:+ newline in
  ret rst.

Definition release_notes_rst : string :=
  TSFPGA_GENERATED env // "sphinx" // "release_notes.rst".

Definition generate_release_notes : M unit :=
  entries ← get_release_notes_files;
  rst ← for_each release_notes_step entries "";
  create_file release_notes_rst rst.

(** *** The other steps *)

Definition generate_registers : M unit :=
  let cmd := [sys_executable env;
              TSFPGA_EXAMPLES env // "build.py";
              "--generate-registers-only"] in
  check_call cmd None.

Definition run_apidoc (output_path module_path exclude_pattern : string) : M unit :=
  let cmd := [sys_executable env; "-m"; "sphinx.ext.apidoc"; "-o";
              output_path; module_path; exclude_pattern] in
  check_call cmd (Some (REPO_ROOT env)).

Definition generate_apidoc : M unit :=
  output_path ← delete (TSFPGA_GENERATED env // "sphinx" // "apidoc");
  run_apidoc output_path "tsfpga" "**/test/**".

Definition generate_sphinx_index : M unit :=
  rst ← get_readme_rst false true;
  create_file (TSFPGA_GENERATED env // "sphinx" // "index.rst") rst.

Definition build_information_badges (output_path : string) : M unit :=
  badge_svg ← badge {| left_text := "pip install"; right_text := "tsfpga";
                       left_color := None; right_color := "blue";
                       logo := None; embed_logo := false;
                       left_link := None; right_link := None |};
  create_file (output_path // "pip_install.svg") badge_svg;;
  badge_svg ← badge {| left_text := "license"; right_text := "BSD 3-Clause";
                       left_color := None; right_color := "blue";
                       logo := None; embed_logo := false;
                       left_link := None; right_link := None |};
  create_file (output_path // "license.svg") badge_svg;;
  badge_svg ← badge {| left_text := ""; right_text := "tsfpga/tsfpga";
                       left_color := Some "grey"; right_color := "grey";
                       logo := Some "https://about.gitlab.com/images/press/press-kit-icon.svg";
                       embed_logo := true;
                       left_link := None; right_link := None |};
  create_file (output_path // "gitlab.svg") badge_svg;;
  badge_svg ← badge {| left_text := ""; right_text := "tsfpga.com";
                       left_color := Some "grey"; right_color := "grey";
                       logo := Some "https://design.firefox.com/product-identity/firefox/firefox/firefox-logo.svg";
                       embed_logo := true;
                       left_link := None; right_link := None |};
  create_file (output_path // "website.svg") badge_svg.

(** *** [build_python_coverage_badge] *)

Definition coverage_badge_args (line_coverage : Z) (color : string) : BadgeArgs :=
  {| left_text := "line coverage";
     right_text := Str.of_Z line_coverage +:+ "%";
     left_color := None;
     right_color := color;
     logo := Some (TSFPGA_DOC env // "sphinx" // "Python-logo-notext.svg");
     embed_logo := true;
     left_link := Some "https://tsfpga.com/python_coverage_html";
     right_link := Some "https://tsfpga.com/python_coverage_html" |}.

Definition build_python_coverage_badge (output_path : string) : M unit :=
  fs ← get_files;
  match python_coverage_xml fs with
  | None => raise (AssertionError "Run pytest with coverage before building documentation")
  | Some line_rate =>
      line_coverage ← lift (int_round (line_rate * 100)%float);
      assert (50 <? line_coverage)%Z
             ("Coverage is way low: " +:+ Str.of_Z line_coverage
              +:+ ". Something is wrong.");;
      let color := if (80 <? line_coverage)%Z then "green" else "red" in
      badge_svg ← badge (coverage_badge_args line_coverage color);
      create_file (output_path // "python_coverage.svg") badge_svg
  end.

Definition build_sphinx (build_path output_path : string) : M unit :=
  let cmd := [sys_executable env; "-m"; "sphinx"; "-EanWT";
              build_path; output_path] in
  check_call cmd (Some build_path);;
  let index_html := output_path // "index.html" in
  found ← path_exists index_html;
  assert found index_html;;
  print ("Open with:" +:+ newline +:+ "firefox " +:+ index_html +:+ " &").

Definition copy_python_coverage_to_html_output : M unit :=
  let coverage_html := TSFPGA_GENERATED env // "python_coverage_html" in
  found ← path_exists (coverage_html // "index.html");
  assert found "Run pytest with coverage before building documentation";;
  copytree coverage_html (SPHINX_HTML // "python_coverage_html").

(** *** [main]; [args] is what [arguments()] returns *)

Definition main (args : Args) : M unit :=
  delete SPHINX_HTML;;
  generate_registers;;
  generate_release_notes;;
  generate_apidoc;;
  generate_sphinx_index;;
  build_sphinx (TSFPGA_DOC env // "sphinx") SPHINX_HTML;;
  badges_path ← create_directory (SPHINX_HTML // "badges");
  build_information_badges badges_path;;
  if skip_coverage args then ret tt
  else
    build_python_coverage_badge badges_path;;
    copy_python_coverage_to_html_output.

End BuildDocs.

(** ** A concrete environment, for examples *)

Module Example.

(** [datetime.fromtimestamp] on a machine whose time zone is UTC: the
    civil date of a number of seconds since 1970-01-01. *)
Definition utc_fromtimestamp (timestamp : Z) : Result datetime :=
  let days := (timestamp / 86400)%Z in
  let z := (days + 719468)%Z in
  let era := (z / 146097)%Z in
  let doe := (z - era * 146097)%Z in
  let yoe := ((doe - doe / 1460 + doe / 36524 - doe / 146096) / 365)%Z in
  let y := (yoe + era * 400)%Z in
  let doy := (doe - (365 * yoe + yoe / 4 - yoe / 100))%Z in
  let mp := ((5 * doy + 2) / 153)%Z in
  let d := (doy - (153 * mp + 2) / 5 + 1)%Z in
  let m := (if (mp <? 10)%Z then mp + 3 else mp - 9)%Z in
  let y := (if (m <=? 2)%Z then y + 1 else y)%Z in
  if ((1 <=? y) && (y <=? 9999))%Z
  then Ok {| year := Z.to_N y; month := Z.to_N m; day := Z.to_N d |}
  else Raise OverflowError.

(** A repository given by its tags (reference name, commit time). *)
Fixpoint tag_commit_time (tags : list (string * Z)) (ref : string) : Result Z :=
  match tags with
  | [] => Raise ValueError
  | (r, t) :: tags' => if String.eqb r ref then Ok t else tag_commit_time tags' ref
  end.

(** Child processes succeed; the sphinx build leaves its index page. *)
Definition env (tags : list (string * Z)) : Env :=
  {| sys_executable := "python3";
     REPO_ROOT := "/repo";
     TSFPGA_DOC := "/repo/doc";
     TSFPGA_GENERATED := "/repo/generated";
     TSFPGA_EXAMPLES := "/repo/examples";
     committed_date := tag_commit_time tags;
     fromtimestamp := utc_fromtimestamp;
     run_process := fun cmd cwd fs =>
       (true, {| release_notes_dir := release_notes_dir fs;
                 text_files := <["/repo/generated/sphinx_html/index.html" := "<html/>"]>
                                 (text_files fs);
                 python_coverage_xml := python_coverage_xml fs |});
     render_badge := fun args => Ok (left_text args +:+ ": " +:+ right_text args);
     readme_rst := fun _ _ _ => Ok "tsfpga";
     copy_tree := fun src dst fs => (Ok tt, fs);
     delete_path := fun path fs => fs;
     make_directory := fun path fs => fs |}.

Definition tags : list (string * Z) :=
  [("refs/tags/v1.0.0", 1583000000%Z);
   ("refs/tags/v2.0.0", 1590000000%Z);
   ("refs/tags/v1.0", 1560000000%Z);
   ("refs/tags/v1.0.1", 1570000000%Z)].

Definition world (dir : list (string * string)) (coverage : option float) : World :=
  {| files := {| release_notes_dir := dir;
                 text_files := ∅;
                 python_coverage_xml := coverage |};
     events := [] |}.

Definition notes : list (string * string) :=
  [("1.0.0.rst", "First release.");
   ("unreleased.rst", "Nothing here yet.");
   ("readme.txt", "not a note");
   ("2.0.0.rst", "Second release.")].

(** Two versions one of whose stems is a prefix of the other's. *)
Definition notes_prefix : list (string * string) :=
  [("unreleased.rst", "Nothing here yet.");
   ("1.0.1.rst", "Patch.");
   ("1.0.rst", "First release.")].

(** The same environment, with child processes that exit with an error
    and change nothing. *)
Definition failing_env (tags : list (string * Z)) : Env :=
{| sys_executable := sys_executable (env tags);
   REPO_ROOT := REPO_ROOT (env tags);
   TSFPGA_DOC := TSFPGA_DOC (env tags);
   TSFPGA_GENERATED := TSFPGA_GENERATED (env tags);
   TSFPGA_EXAMPLES := TSFPGA_EXAMPLES (env tags);
   committed_date := committed_date (env tags);
   fromtimestamp := fromtimestamp (env tags);
   run_process := fun cmd cwd fs => (false, fs);
   render_badge := render_badge (env tags);
   readme_rst := readme_rst (env tags);
   copy_tree := copy_tree (env tags);
   delete_path := delete_path (env tags);
   make_directory := make_directory (env tags) |}.

(** A world where the coverage report and its pages exist. *)
Definition world_with_coverage : World :=
{| files := {| release_notes_dir := notes;
               text_files :=
                 {[ "/repo/generated/python_coverage_html/index.html" := "<html/>" ]};
               python_coverage_xml := Some 0.85%float |};
   events := [] |}.

End Example.



(** ** Notions used in the statements *)

(** Descending, strictly: each name is greater than all that follow. *)
Definition desc (a b : string) : Prop := Str.lt b a.

(** Descending, with ties. *)
Definition desc_eq (a b : string) : Prop := a = b \/ Str.lt b a.

Definition add_events (w : World) (evs : list Event) : World :=
  {| files := files w; events := events w ++ evs |}.

(** The note files with a version: what [glob] yields, without the
    unreleased file. *)
Definition versioned_files (dir : list (string * string)) : list string :=
  filter (fun f => f <> "unreleased.rst")
    (filter (fun name => Str.endswith name ".rst" = true) dir.*1).

(** What [glob] yields, and the list the releases are built from. *)
Definition glob_names (dir : list (string * string)) : list string :=
  filter (fun name => Str.endswith name ".rst" = true) dir.*1.

Definition note_list (dir : list (string * string)) : list string :=
  release_notes_list (glob_names dir).

(** The git reference that [Release] resolves for a versioned file. *)
Definition tag_ref (file : string) : string :=
  "refs/tags/" +:+ ("v" +:+ Path.stem file).

(** The lower-cased English month names. *)
Definition month_name_lower (m : N) : string :=
  match m with
  | 1 => "january" | 2 => "february" | 3 => "march" | 4 => "april"
  | 5 => "may" | 6 => "june" | 7 => "july" | 8 => "august"
  | 9 => "september" | 10 => "october" | 11 => "november" | 12 => "december"
  | _ => ""
  end%N.

(** A date written as [D month YYYY]. *)
Definition format_date (time : datetime) : string :=
  Str.of_N (day time) +:+ " " +:+ month_name_lower (month time)
  +:+ " " +:+ Str.of_N (year time).

(** The value of [Release(file)], without the record of the lookup. *)
Definition release_of (env : Env) (file : string) : Result Release :=
  if String.eqb (Path.stem file) "unreleased" then
    Ok {| release_notes_file := file; version := "Unreleased";
          git_tag := "master"; date := "YYYY-MM-DD" |}
  else
    match committed_date env (tag_ref file) with
    | Raise e => Raise e
    | Ok timestamp =>
        match fromtimestamp env timestamp with
        | Raise e => Raise e
        | Ok time =>
            Ok {| release_notes_file := file; version := Path.stem file;
                  git_tag := "v" +:+ Path.stem file; date := format_date time |}
        end
    end.

(** The lookups that [Release(file)] makes. *)
Definition git_events (file : string) : list Event :=
  if String.eqb (Path.stem file) "unreleased" then [] else [EvGitTag (tag_ref file)].

(** The value of [[Release(f) for f in l]] and the lookups it makes: it
    stops at the first [Release] that raises. *)
Fixpoint releases_of (env : Env) (l : list string) : Result (list Release) :=
  match l with
  | [] => Ok []
  | f :: l' =>
      match release_of env f with
      | Raise e => Raise e
      | Ok r =>
          match releases_of env l' with
          | Raise e => Raise e
          | Ok rs => Ok (r :: rs)
          end
      end
  end.

Fixpoint lookups (env : Env) (l : list string) : list Event :=
  match l with
  | [] => []
  | f :: l' =>
      git_events f ++
      match release_of env f with
      | Raise _ => []
      | Ok _ => lookups env l'
      end
  end.

(** What the generator yields for a list of releases. *)
Definition entries_of (releases : list Release)
  : list (Release * option string) :=
  imap (fun idx release => (release, previous_release_git_tag releases idx)) releases.

(** The heading of an entry with its underline and the blank line. *)
Definition heading_rst (release : Release) : string :=
  let heading := version release +:+ " (" +:+ date release +:+ ")" in
  (heading +:+ newline)
  +:+ ((Str.repeat "-" (String.length heading) +:+ newline) +:+ newline).

(** The text of one entry of the document. *)
Definition entry_rst (entry : Release * option string) (body : string) : string :=
  heading_rst (fst entry)
  +:+ (match snd entry with
       | Some tag => diff_line tag (fst entry)
       | None => ""
       end
       +:+ (newline +:+ (body +:+ newline))).

(** The text of the document for the entries, read from [dir]; it fails
    at the first entry whose file is missing. *)
Fixpoint document_of (dir : list (string * string))
  (entries : list (Release * option string)) (rst : string) : Result string :=
  match entries with
  | [] => Ok rst
  | entry :: entries' =>
      match find_entry (release_notes_file (fst entry)) dir with
      | None => Raise (FileNotFoundError (release_notes_file (fst entry)))
      | Some body => document_of dir entries' (rst +:+ entry_rst entry body)
      end
  end.

(** The text that [generate_release_notes] assembles from [dir], or the
    exception it stops with. *)
Definition assembled (env : Env) (dir : list (string * string)) : Result string :=
  match releases_of env (note_list dir) with
  | Raise e => Raise e
  | Ok releases => document_of dir (entries_of releases) ""
  end.

(** The files after [create_file path contents]. *)
Definition with_text_file (fs : Files) (path contents : string) : Files :=
  {| release_notes_dir := release_notes_dir fs;
     text_files := <[path := contents]> (text_files fs);
     python_coverage_xml := python_coverage_xml fs |}.

(** The world after the first run, with the release notes directory
    enumerated again, possibly in another order. *)
Definition enumerate_again (w : World) (dir : list (string * string)) : World :=
  {| files := {| release_notes_dir := dir;
                 text_files := text_files (files w);
                 python_coverage_xml := python_coverage_xml (files w) |};
     events := events w |}.

(** The concatenation of a list of texts. *)
Definition join_all (texts : list string) : string :=
  foldr String.append "" texts.

(** The unreleased entry, as [Release] builds it. *)
Definition unreleased_release : Release :=
  {| release_notes_file := "unreleased.rst"; version := "Unreleased";
     git_tag := "master"; date := "YYYY-MM-DD" |}.

(** No stem of one file is the beginning of the stem of another file. *)
Definition prefix_free_stems (l : list string) : Prop :=
  forall a b, a ∈ l -> b ∈ l -> a <> b ->
    String.prefix (Path.stem a) (Path.stem b) = false.

(** The outcome of rendering a badge with the arguments [args] and
    writing it as [python_coverage.svg] under [output_path]. *)
Definition badge_rendered (env : Env) (output_path : string) (w : World)
  (args : BadgeArgs) : Result unit * World :=
  match render_badge env args with
  | Ok badge_svg =>
      (Ok tt,
       {| files := with_text_file (files w)
                     (output_path // "python_coverage.svg") badge_svg;
          events := events w
                    ++ [EvBadge args;
                        EvCreateFile (output_path // "python_coverage.svg")] |})
  | Raise e => (Raise e, add_events w [EvBadge args])
  end.

(** The message of the assertion on the minimum coverage. *)
Definition coverage_way_low (p : Z) : Exception :=
  AssertionError ("Coverage is way low: " +:+ Str.of_Z p
                  +:+ ". Something is wrong.").

(** The events of a build in which no step raises, up to the badges with
    the information on the project, in order; [refs] are the references
    looked up for the release notes. *)
Definition documentation_events (env : Env) (refs : list string) : list Event :=
  let generated := TSFPGA_GENERATED env in
  let sphinx_html := generated // "sphinx_html" in
  let badges := sphinx_html // "badges" in
  [EvDelete sphinx_html;
   EvCheckCall [sys_executable env; TSFPGA_EXAMPLES env // "build.py";
                "--generate-registers-only"] None]
  ++ map EvGitTag refs
  ++ [EvCreateFile (generated // "sphinx" // "release_notes.rst");
      EvDelete (generated // "sphinx" // "apidoc");
      EvCheckCall [sys_executable env; "-m"; "sphinx.ext.apidoc"; "-o";
                   generated // "sphinx" // "apidoc"; "tsfpga"; "**/test/**"]
                  (Some (REPO_ROOT env));
      EvReadme;
      EvCreateFile (generated // "sphinx" // "index.rst");
      EvCheckCall [sys_executable env; "-m"; "sphinx"; "-EanWT";
                   TSFPGA_DOC env // "sphinx"; sphinx_html]
                  (Some (TSFPGA_DOC env // "sphinx"));
      EvPrint ("Open with:
firefox " +:+ (sphinx_html // "index.html") +:+ " &");
      EvCreateDirectory badges;
      EvBadge {| left_text := "pip install"; right_text := "tsfpga";
                 left_color := None; right_color := "blue";
                 logo := None; embed_logo := false;
                 left_link := None; right_link := None |};
      EvCreateFile (badges // "pip_install.svg");
      EvBadge {| left_text := "license"; right_text := "BSD 3-Clause";
                 left_color := None; right_color := "blue";
                 logo := None; embed_logo := false;
                 left_link := None; right_link := None |};
      EvCreateFile (badges // "license.svg");
      EvBadge {| left_text := ""; right_text := "tsfpga/tsfpga";
                 left_color := Some "grey"; right_color := "grey";
                 logo := Some "https://about.gitlab.com/images/press/press-kit-icon.svg";
                 embed_logo := true;
                 left_link := None; right_link := None |};
      EvCreateFile (badges // "gitlab.svg");
      EvBadge {| left_text := ""; right_text := "tsfpga.com";
                 left_color := Some "grey"; right_color := "grey";
                 logo := Some "https://design.firefox.com/product-identity/firefox/firefox/firefox-logo.svg";
                 embed_logo := true;
                 left_link := None; right_link := None |};
      EvCreateFile (badges // "website.svg")].

(** The events of the two coverage steps when neither raises: the badge
    with the percentage [p] in the colour [color], and the copy of the
    report. *)
Definition coverage_events (env : Env) (p : Z) (color : string) : list Event :=
  let generated := TSFPGA_GENERATED env in
  let sphinx_html := generated // "sphinx_html" in
  [EvBadge {| left_text := "line coverage";
              right_text := Str.of_Z p +:+ "%";
              left_color := None;
              right_color := color;
              logo := Some (TSFPGA_DOC env // "sphinx" // "Python-logo-notext.svg");
              embed_logo := true;
              left_link := Some "https://tsfpga.com/python_coverage_html";
              right_link := Some "https://tsfpga.com/python_coverage_html" |};
   EvCreateFile (sphinx_html // "badges" // "python_coverage.svg");
   EvCopyTree (generated // "python_coverage_html")
              (sphinx_html // "python_coverage_html")].

(** An event that only the coverage steps produce. *)
Definition coverage_event (ev : Event) : bool :=
  match ev with
  | EvBadge args => String.eqb (left_text args) "line coverage"
  | EvCopyTree _ _ => true
  | _ => false
  end.

(** An event of the other steps. *)
Definition other_event (ev : Event) : bool := negb (coverage_event ev).

(** [m] records only events that satisfy [P]. *)
Definition emits_only {A} (P : Event -> bool) (m : M A) : Prop :=
  forall w, exists evs,
    events (snd (m w)) = (events w ++ evs)%list /\ forallb P evs = true.

(** * Properties *)

(** ** The order of strings *)

Lemma ltb_lt a b : Str.ltb a b = true <-> Str.lt a b.
Proof.
  unfold Str.ltb, Str.lt.
  destruct (String_as_OT.compare a b); split; congruence.
Qed.

Lemma lt_irrefl a : ~ Str.lt a a.
Proof. apply (StrictOrder_Irreflexive (R := String_as_OT.lt)). Qed.

Lemma lt_trans a b c : Str.lt a b -> Str.lt b c -> Str.lt a c.
Proof. apply (StrictOrder_Transitive (R := String_as_OT.lt)). Qed.

Lemma lt_trichotomy a b : Str.lt a b \/ a = b \/ Str.lt b a.
Proof.
  destruct (String_as_OT.compare_spec a b) as [H|H|H]; auto.
Qed.

Lemma ltb_false a b : Str.ltb a b = false -> a = b \/ Str.lt b a.
Proof.
  intros H. destruct (lt_trichotomy a b) as [Hlt|[?|?]]; auto.
  apply ltb_lt in Hlt. congruence.
Qed.

(** ** [sort_reverse] *)

Lemma insert_desc_perm x l : Permutation (insert_desc x l) (x :: l).
Proof.
  induction l as [|y l IH]; simpl; [reflexivity|].
  destruct (Str.ltb x y); [|reflexivity].
  rewrite IH. apply perm_swap.
Qed.

Lemma sort_reverse_perm l : Permutation (sort_reverse l) l.
Proof.
  induction l as [|x l IH]; simpl; [reflexivity|].
  rewrite insert_desc_perm. by constructor.
Qed.

Lemma desc_eq_trans a b c : desc_eq a b -> desc_eq b c -> desc_eq a c.
Proof.
  intros [->|H1] [->|H2]; unfold desc_eq; auto.
  right. eapply lt_trans; eauto.
Qed.

Lemma insert_desc_sorted x l :
  StronglySorted desc_eq l -> StronglySorted desc_eq (insert_desc x l).
Proof.
  induction 1 as [|y l Hl IH Hy]; simpl.
  - repeat constructor.
  - destruct (Str.ltb x y) eqn:E.
    + constructor; [exact IH|].
      rewrite insert_desc_perm. constructor; [|exact Hy].
      right. by apply ltb_lt.
    + apply ltb_false in E. constructor; [by constructor|].
      constructor; [exact E|].
      eapply Forall_impl; [exact Hy|].
      intros z Hz. eapply desc_eq_trans; eauto.
Qed.

Lemma sort_reverse_sorted l : StronglySorted desc_eq (sort_reverse l).
Proof.
  induction l as [|x l IH]; simpl; [constructor|].
  by apply insert_desc_sorted.
Qed.

Lemma sorted_NoDup_strict l :
  NoDup l -> StronglySorted desc_eq l -> StronglySorted desc l.
Proof.
  induction 2 as [|x l Hl IH Hx]; [constructor|].
  apply NoDup_cons in H as [Hnin Hnd].
  constructor; [by apply IH|].
  rewrite Forall_forall in Hx |- *.
  intros y Hy. destruct (Hx y Hy) as [->|?]; [|done].
  by destruct Hnin.
Qed.

(** On distinct names the result is strictly descending. *)
Lemma sort_reverse_strict l : NoDup l -> StronglySorted desc (sort_reverse l).
Proof.
  intros Hnd. apply sorted_NoDup_strict; [|apply sort_reverse_sorted].
  by rewrite sort_reverse_perm.
Qed.

(** On distinct names the result is the only descending arrangement:
    whatever algorithm [list.sort] runs, this is its result. *)
Lemma sort_reverse_unique l l' :
  NoDup l -> Permutation l' l -> StronglySorted desc l' -> l' = sort_reverse l.
Proof.
  intros Hnd Hp Hs.
  apply (StronglySorted_unique_strong desc); [|done|by apply sort_reverse_strict|].
  - intros x y _ _ H1 H2. destruct (lt_irrefl x). eapply lt_trans; eauto.
  - by rewrite sort_reverse_perm.
Qed.

(** The order of enumeration does not matter. *)
Lemma sort_reverse_permutation l l' :
  NoDup l -> Permutation l l' -> sort_reverse l = sort_reverse l'.
Proof.
  intros Hnd Hp. symmetry. apply sort_reverse_unique; [done| |].
  - by rewrite sort_reverse_perm.
  - apply sort_reverse_strict. by rewrite <- Hp.
Qed.

(** ** Strings, suffixes and stems *)

Lemma append_cons c s t : String c s +:+ t = String c (s +:+ t).
Proof. reflexivity. Qed.

Lemma append_nil_l t : "" +:+ t = t.
Proof. reflexivity. Qed.

Lemma append_nil_r s : s +:+ "" = s.
Proof. induction s as [|c s IH]; [done|]. by rewrite append_cons, IH. Qed.

Lemma append_assoc s t u : (s +:+ t) +:+ u = s +:+ (t +:+ u).
Proof.
  induction s as [|c s IH]; [done|]. by rewrite !append_cons, IH.
Qed.

Lemma length_append s t :
  String.length (s +:+ t) = (String.length s + String.length t)%nat.
Proof.
  induction s as [|c s IH]; [done|]. rewrite append_cons. simpl. by rewrite IH.
Qed.

Lemma substring_0_0 s : substring 0 0 s = "".
Proof. by destruct s. Qed.

Lemma substring_0_length s : substring 0 (String.length s) s = s.
Proof. induction s as [|c s IH]; simpl; [done|]. by rewrite IH. Qed.

Lemma substring_split s n :
  (n <= String.length s)%nat ->
  s = substring 0 n s +:+ substring n (String.length s - n) s.
Proof.
  revert n. induction s as [|c s IH]; intros n Hn.
  - by destruct n.
  - destruct n as [|n].
    + by rewrite substring_0_0, append_nil_l, Nat.sub_0_r, substring_0_length.
    + simpl in *. rewrite append_cons. f_equal. apply IH. lia.
Qed.

Lemma substring_append_l s t : substring 0 (String.length s) (s +:+ t) = s.
Proof.
  induction s as [|c s IH].
  - apply substring_0_0.
  - rewrite append_cons. simpl. by rewrite IH.
Qed.

(** A name that [glob] accepts is a stem followed by the suffix. *)
Lemma endswith_inv name suffix :
  Str.endswith name suffix = true -> exists s, name = s +:+ suffix.
Proof.
  unfold Str.endswith. intros [Hle Heq]%andb_prop.
  apply Nat.leb_le in Hle. apply String.eqb_eq in Heq.
  set (n := String.length name) in *. set (k := String.length suffix) in *.
  exists (substring 0 (n - k) name).
  rewrite <- Heq.
  pose proof (substring_split name (n - k)) as H.
  replace (String.length name - (n - k))%nat with k in H by (unfold n; lia).
  apply H. unfold n. lia.
Qed.

Lemma rfind_dot_rst s : Str.rfind_dot (s +:+ ".rst") = Some (String.length s).
Proof.
  induction s as [|c s IH]; [done|].
  rewrite append_cons. simpl. by rewrite IH.
Qed.

Lemma stem_rst s : s <> "" -> Path.stem (s +:+ ".rst") = s.
Proof.
  intros Hs. unfold Path.stem. rewrite rfind_dot_rst, length_append. simpl.
  destruct s as [|c s]; [done|]. simpl String.length.
  replace (0 <? S (String.length s))%nat with true
    by (symmetry; apply Nat.ltb_lt; lia).
  replace (S (String.length s) <? S (String.length s) + 4 - 1)%nat with true
    by (symmetry; apply Nat.ltb_lt; lia).
  simpl andb. cbv iota.
  apply (substring_append_l (String c s)).
Qed.

Lemma stem_rst_empty : Path.stem ".rst" = ".rst".
Proof. reflexivity. Qed.

(** Among the names [glob] accepts, only [unreleased.rst] has the stem of
    the unreleased notes. *)
Lemma stem_unreleased name :
  Str.endswith name ".rst" = true ->
  Path.stem name = "unreleased" -> name = "unreleased.rst".
Proof.
  intros [s ->]%endswith_inv Hstem.
  destruct (decide (s = "")) as [->|Hs]; [done|].
  rewrite stem_rst in Hstem by done. by subst.
Qed.

(** ** Running the release notes code *)

Ltac run_monad :=
  unfold mbind, M_bind, bind, mret, M_ret, ret, raise, get_files, set_files, emit.

Lemma add_events_nil w : add_events w [] = w.
Proof. destruct w. unfold add_events. simpl. by rewrite app_nil_r. Qed.

Lemma add_events_app w a b :
  add_events (add_events w a) b = add_events w (a ++ b).
Proof. unfold add_events. simpl. by rewrite app_assoc. Qed.

Lemma lower_append s t : Str.lower (s +:+ t) = Str.lower s +:+ Str.lower t.
Proof.
  induction s as [|c s IH]; [done|].
  rewrite append_cons. simpl. by rewrite IH.
Qed.

Lemma lower_uint d :
  Str.lower (NilEmpty.string_of_uint d) = NilEmpty.string_of_uint d.
Proof. induction d; simpl; by rewrite ?IHd. Qed.

(** Lower-casing leaves a number as it is. *)
Lemma lower_of_N n : Str.lower (Str.of_N n) = Str.of_N n.
Proof.
  unfold Str.of_N, NilZero.string_of_uint.
  destruct (N.to_uint n) eqn:E; try done; apply lower_uint.
Qed.

Lemma lower_month m : Str.lower (strftime_B m) = month_name_lower m.
Proof.
  destruct m as [|p]; [done|].
  do 4 (destruct p as [p|p|]; try done).
Qed.

Lemma lower_date time :
  Str.lower (Str.of_N (day time) +:+ " " +:+ strftime_B (month time)
             +:+ " " +:+ Str.of_N (year time)) = format_date time.
Proof.
  unfold format_date.
  by rewrite !lower_append, !lower_of_N, lower_month.
Qed.

Lemma Release_init_run env file w :
  Release_init env file w = (release_of env file, add_events w (git_events file)).
Proof.
  unfold Release_init, release_of, git_events, get_git_date_from_tag, tag_ref.
  destruct (String.eqb (Path.stem file) "unreleased").
  - run_monad. by rewrite add_events_nil.
  - run_monad. simpl.
    destruct (committed_date env _) as [ts|e]; simpl; [|done].
    destruct (fromtimestamp env ts) as [time|e]; simpl; [|done].
    by rewrite lower_date.
Qed.

Lemma comprehension_Release_init_run env l w :
  comprehension (Release_init env) l w
  = (releases_of env l, add_events w (lookups env l)).
Proof.
  revert w. induction l as [|f l IH]; intros w; simpl.
  - run_monad. by rewrite add_events_nil.
  - unfold mbind, M_bind, bind. rewrite Release_init_run.
    destruct (release_of env f) as [r|e].
    + rewrite IH, add_events_app.
      by destruct (releases_of env l).
    + by rewrite app_nil_r.
Qed.

Lemma bind_run {A B} (m : M A) (k : A -> M B) w :
  (m ≫= k) w
  = match m w with
    | (Ok a, w') => k a w'
    | (Raise e, w') => (Raise e, w')
    end.
Proof. reflexivity. Qed.

Lemma glob_rst_run w :
  glob_rst w = (Ok (glob_names (release_notes_dir (files w))), w).
Proof. reflexivity. Qed.

Lemma get_release_notes_files_run env w :
  get_release_notes_files env w
  = (match releases_of env (note_list (release_notes_dir (files w))) with
     | Ok releases => Ok (entries_of releases)
     | Raise e => Raise e
     end,
     add_events w (lookups env (note_list (release_notes_dir (files w))))).
Proof.
  unfold get_release_notes_files.
  rewrite bind_run, glob_rst_run. cbv beta iota.
  rewrite bind_run, comprehension_Release_init_run.
  fold (note_list (release_notes_dir (files w))).
  by destruct (releases_of env _).
Qed.

Lemma release_notes_step_run entry rst w :
  release_notes_step entry rst w
  = (match find_entry (release_notes_file (fst entry)) (release_notes_dir (files w)) with
     | Some body => Ok (rst +:+ entry_rst entry body)
     | None => Raise (FileNotFoundError (release_notes_file (fst entry)))
     end, w).
Proof.
  destruct entry as [release previous]. unfold release_notes_step, read_file.
  run_monad. simpl.
  destruct (find_entry _ _) as [body|]; simpl; [|done].
  do 2 f_equal. unfold entry_rst, heading_rst. simpl.
  destruct previous as [tag|]; by rewrite ?append_nil_l, ?append_assoc.
Qed.

Lemma for_each_release_notes_step_run entries rst w :
  for_each release_notes_step entries rst w
  = (document_of (release_notes_dir (files w)) entries rst, w).
Proof.
  revert rst. induction entries as [|entry entries IH]; intros rst; simpl.
  - done.
  - unfold mbind, M_bind, bind. rewrite release_notes_step_run.
    destruct (find_entry _ _); [apply IH|done].
Qed.

(** What a run of [generate_release_notes] does: it records the lookups,
    and writes the document when nothing raised. *)
Lemma generate_release_notes_run env w :
  generate_release_notes env w
  = match assembled env (release_notes_dir (files w)) with
    | Ok rst =>
        (Ok tt,
         {| files := with_text_file (files w) (release_notes_rst env) rst;
            events := events w
                      ++ lookups env (note_list (release_notes_dir (files w)))
                      ++ [EvCreateFile (release_notes_rst env)] |})
    | Raise e =>
        (Raise e, add_events w (lookups env (note_list (release_notes_dir (files w)))))
    end.
Proof.
  unfold generate_release_notes, assembled.
  unfold mbind at 1, M_bind at 1, bind at 1. rewrite get_release_notes_files_run.
  destruct (releases_of env _) as [releases|e]; [|done].
  unfold mbind at 1, M_bind at 1, bind at 1.
  rewrite for_each_release_notes_step_run. simpl.
  destruct (document_of _ _ _) as [rst|e]; [|done].
  unfold create_file. run_monad. simpl.
  by rewrite <- app_assoc.
Qed.

(** ** The list of note files and the releases built from it *)

Lemma note_list_eq dir :
  note_list dir = "unreleased.rst" :: sort_reverse (versioned_files dir).
Proof. reflexivity. Qed.

Lemma versioned_files_glob dir f :
  f ∈ versioned_files dir ->
  Str.endswith f ".rst" = true /\ f <> "unreleased.rst" /\ f ∈ dir.*1.
Proof.
  unfold versioned_files. rewrite !list_elem_of_filter. tauto.
Qed.

Lemma versioned_files_NoDup dir :
  NoDup dir.*1 -> NoDup (versioned_files dir).
Proof.
  intros H. unfold versioned_files.
  by do 2 apply NoDup_filter.
Qed.

Lemma versioned_files_permutation dir dir' :
  Permutation dir dir' -> Permutation (versioned_files dir) (versioned_files dir').
Proof.
  intros H. unfold versioned_files. by rewrite H.
Qed.

(** A versioned file is not taken for the unreleased notes. *)
Lemma versioned_stem dir f :
  f ∈ versioned_files dir -> String.eqb (Path.stem f) "unreleased" = false.
Proof.
  intros (Hend & Hne & _)%versioned_files_glob.
  apply String.eqb_neq. intros Hstem. by apply Hne, stem_unreleased.
Qed.

Lemma release_of_unreleased env :
  release_of env "unreleased.rst" = Ok unreleased_release.
Proof. reflexivity. Qed.

Lemma release_of_file env f r :
  release_of env f = Ok r -> release_notes_file r = f.
Proof.
  unfold release_of. destruct (String.eqb _ _).
  - by intros [= <-].
  - destruct (committed_date env _); [|done].
    destruct (fromtimestamp env _); [|done]. by intros [= <-].
Qed.

Lemma release_of_version env f r :
  String.eqb (Path.stem f) "unreleased" = false ->
  release_of env f = Ok r ->
  version r = Path.stem f /\ git_tag r = "v" +:+ Path.stem f.
Proof.
  unfold release_of. intros ->.
  destruct (committed_date env _); [|done].
  destruct (fromtimestamp env _); [|done]. by intros [= <-].
Qed.

Lemma releases_of_ok env l :
  (forall f, f ∈ l -> exists r, release_of env f = Ok r) ->
  exists rs, releases_of env l = Ok rs /\
             Forall2 (fun f r => release_of env f = Ok r) l rs.
Proof.
  induction l as [|f l IH]; intros H; simpl.
  - exists []. split; [done|constructor].
  - destruct (H f) as [r Hr]; [by left|].
    destruct IH as (rs & Hrs & Hall); [intros; apply H; by right|].
    rewrite Hr, Hrs. exists (r :: rs). split; [done|by constructor].
Qed.

Lemma releases_of_inv env l rs :
  releases_of env l = Ok rs ->
  Forall2 (fun f r => release_of env f = Ok r) l rs.
Proof.
  revert rs. induction l as [|f l IH]; intros rs; simpl.
  - intros [= <-]. constructor.
  - destruct (release_of env f) as [r|] eqn:Hr; [|done].
    destruct (releases_of env l) as [rs'|]; [|done].
    intros [= <-]. constructor; [done|by apply IH].
Qed.

Lemma releases_files env l rs :
  Forall2 (fun f r => release_of env f = Ok r) l rs ->
  map release_notes_file rs = l.
Proof.
  induction 1 as [|f r l rs Hr _ IH]; simpl; [done|].
  f_equal; [by eapply release_of_file|done].
Qed.

Lemma releases_versions env l rs :
  (forall f, f ∈ l -> String.eqb (Path.stem f) "unreleased" = false) ->
  Forall2 (fun f r => release_of env f = Ok r) l rs ->
  map version rs = map Path.stem l /\
  map git_tag rs = map (fun f => "v" +:+ Path.stem f) l.
Proof.
  intros Hl. induction 1 as [|f r l rs Hr _ IH]; simpl; [done|].
  destruct (release_of_version env f r) as [-> ->]; [apply Hl; by left|done|].
  destruct IH as [-> ->]; [intros; apply Hl; by right|done].
Qed.

(** ** Names and stems in the same order *)

Lemma ascii_compare_refl c : Ascii_as_OT.compare c c = Eq.
Proof. unfold Ascii_as_OT.compare. apply N.compare_refl. Qed.

Lemma ascii_compare_eq c d : Ascii_as_OT.compare c d = Eq -> c = d.
Proof.
  destruct (Ascii_as_OT.compare_spec c d) as [H|H|H]; try done.
Qed.

(** When neither string begins with the other, what follows them does
    not change how they compare. *)
Lemma compare_append a b t u :
  String.prefix a b = false -> String.prefix b a = false ->
  String_as_OT.compare (a +:+ t) (b +:+ u) = String_as_OT.compare a b.
Proof.
  revert b. induction a as [|c a IH]; intros [|d b] Hab Hba; try done.
  rewrite !append_cons. simpl in *.
  destruct (Ascii_as_OT.compare c d) eqn:E; try done.
  apply ascii_compare_eq in E as ->.
  destruct (ascii_dec d d); [|done]. by apply IH.
Qed.

(** A name that [glob] accepts begins with its stem. *)
Lemma stem_prefix name :
  Str.endswith name ".rst" = true -> exists t, name = Path.stem name +:+ t.
Proof.
  intros [s ->]%endswith_inv.
  destruct (decide (s = "")) as [->|Hs].
  - by exists "".
  - exists ".rst". by rewrite stem_rst.
Qed.

Lemma desc_stems l :
  Forall (fun f => Str.endswith f ".rst" = true) l ->
  prefix_free_stems l ->
  StronglySorted desc l -> StronglySorted desc (map Path.stem l).
Proof.
  intros Hend Hfree Hs. induction Hs as [|f l Hl IH Hf]; simpl; [constructor|].
  apply Forall_cons in Hend as [Hf_end Hl_end].
  constructor.
  - apply IH; [done|]. intros a b Ha Hb. apply Hfree; by right.
  - rewrite Forall_forall in Hf. apply Forall_forall. intros s Hs.
    apply list_elem_of_fmap in Hs as (g & -> & Hg).
    assert (Hgf : desc f g) by (by apply Hf).
    assert (g <> f) as Hne.
    { intros ->. by apply lt_irrefl in Hgf. }
    rewrite Forall_forall in Hl_end.
    destruct (stem_prefix f Hf_end) as [t Ht].
    destruct (stem_prefix g (Hl_end g Hg)) as [u Hu].
    unfold desc, Str.lt in *. rewrite Hu, Ht in Hgf at 1.
    rewrite compare_append in Hgf; [done| |].
    + apply Hfree; [by right|by left|done].
    + apply Hfree; [by left|by right|done].
Qed.

(** ** The document *)

Lemma find_entry_Some name (dir : list (string * string)) :
  name ∈ dir.*1 -> exists body, find_entry name dir = Some body.
Proof.
  induction dir as [|[n b] dir IH]; simpl; [by intros ?%elem_of_nil|].
  intros Hin. destruct (String.eqb_spec n name) as [->|Hne]; [by eexists|].
  apply elem_of_cons in Hin as [->|Hin]; [done|by apply IH].
Qed.

Lemma find_entry_elem_of name body (dir : list (string * string)) :
  NoDup dir.*1 -> (find_entry name dir = Some body <-> (name, body) ∈ dir).
Proof.
  induction dir as [|[n b] dir IH]; simpl.
  - intros _. split; [done|by intros ?%elem_of_nil].
  - intros [Hn Hnd]%NoDup_cons. rewrite elem_of_cons.
    destruct (String.eqb_spec n name) as [->|Hne].
    + split; [intros [= ->]; by left|].
      intros [[= ->]|Hin]; [done|].
      destruct Hn. apply list_elem_of_fmap. by exists (name, body).
    + rewrite IH by done. split; [by right|].
      intros [[= -> ->]|?]; done.
Qed.

Lemma find_entry_permutation name (dir dir' : list (string * string)) :
  NoDup dir.*1 -> dir ≡ₚ dir' -> find_entry name dir = find_entry name dir'.
Proof.
  intros Hnd Hp.
  assert (Hnd' : NoDup dir'.*1) by (by rewrite <- Hp).
  destruct (find_entry name dir) as [body|] eqn:E.
  - symmetry. apply find_entry_elem_of; [done|]. rewrite <- Hp.
    by apply find_entry_elem_of.
  - destruct (find_entry name dir') as [body|] eqn:E'; [|done].
    apply find_entry_elem_of in E'; [|done]. rewrite <- Hp in E'.
    apply find_entry_elem_of in E'; [|done]. congruence.
Qed.

Lemma document_of_found dir entries rst :
  (forall entry, entry ∈ entries -> release_notes_file entry.1 ∈ dir.*1) ->
  exists bodies,
    Forall2 (fun entry body => find_entry (release_notes_file entry.1) dir = Some body)
            entries bodies /\
    document_of dir entries rst
    = Ok (rst +:+ join_all (zip_with entry_rst entries bodies)).
Proof.
  revert rst. induction entries as [|entry entries IH]; intros rst Hin; simpl.
  - exists []. split; [constructor|]. by rewrite append_nil_r.
  - destruct (find_entry_Some (release_notes_file entry.1) dir) as [body Hbody];
      [apply Hin; by left|].
    destruct (IH (rst +:+ entry_rst entry body)) as (bodies & Hall & Hdoc);
      [intros; apply Hin; by right|].
    exists (body :: bodies). split; [by constructor|].
    rewrite Hbody, Hdoc. simpl. by rewrite append_assoc.
Qed.

Lemma entries_of_fst releases : (entries_of releases).*1 = releases.
Proof.
  unfold entries_of. apply list_eq. intros i.
  rewrite list_lookup_fmap, list_lookup_imap.
  by destruct (releases !! i).
Qed.

(** ** The order of the entries *)

Lemma note_list_releases env dir :
  (forall f, f ∈ versioned_files dir -> exists r, release_of env f = Ok r) ->
  exists releases,
    releases_of env (note_list dir) = Ok (unreleased_release :: releases) /\
    map release_notes_file releases = sort_reverse (versioned_files dir) /\
    map version releases = map Path.stem (sort_reverse (versioned_files dir)) /\
    map git_tag releases
    = map (fun f => "v" +:+ Path.stem f) (sort_reverse (versioned_files dir)).
Proof.
  intros Hres.
  destruct (releases_of_ok env (sort_reverse (versioned_files dir)))
    as (releases & Hrel & Hall).
  { intros f Hf. apply Hres. by rewrite <- (sort_reverse_perm (versioned_files dir)). }
  exists releases. rewrite note_list_eq. simpl. rewrite Hrel.
  split; [done|]. split; [by eapply releases_files|].
  eapply releases_versions; [|done].
  intros f Hf. apply (versioned_stem dir).
  by rewrite <- (sort_reverse_perm (versioned_files dir)).
Qed.

(** What the sort does. For a release notes directory with distinct
    file names that contains [unreleased.rst] and N versioned note files
    whose tags resolve, the run succeeds and the document it writes is
    made of the unreleased entry followed by the N versioned entries, and
    these are in strictly descending order of their stems as long as no
    stem is the beginning of another. What is compared are the paths, so
    in general only the file names (the stem followed by [.rst]) are in
    descending order. *)
Theorem release_notes_order env w :
  let dir := release_notes_dir (files w) in
  NoDup dir.*1 ->
  "unreleased.rst" ∈ dir.*1 ->
  (forall f, f ∈ versioned_files dir -> exists r, release_of env f = Ok r) ->
  exists sorted releases bodies,
    sorted ≡ₚ versioned_files dir /\
    StronglySorted desc sorted /\
    (prefix_free_stems (versioned_files dir) ->
     StronglySorted desc (map Path.stem sorted)) /\
    fst (get_release_notes_files env w)
    = Ok (entries_of (unreleased_release :: releases)) /\
    map release_notes_file releases = sorted /\
    map version releases = map Path.stem sorted /\
    Forall2 (fun entry body =>
               find_entry (release_notes_file entry.1) dir = Some body)
            (entries_of (unreleased_release :: releases)) bodies /\
    fst (generate_release_notes env w) = Ok tt /\
    text_files (files (snd (generate_release_notes env w))) !! release_notes_rst env
    = Some (join_all (zip_with entry_rst
                        (entries_of (unreleased_release :: releases)) bodies)).
Proof.
  intros dir Hnd Hun Hres.
  destruct (note_list_releases env dir Hres) as (releases & Hrel & Hfiles & Hver & _).
  destruct (document_of_found dir (entries_of (unreleased_release :: releases)) "")
    as (bodies & Hbodies & Hdoc).
  { intros entry Hentry.
    assert (Hin : entry.1 ∈ unreleased_release :: releases).
    { rewrite <- (entries_of_fst (unreleased_release :: releases)).
      apply list_elem_of_fmap. by exists entry. }
    apply elem_of_cons in Hin as [->|Hin]; [done|].
    assert (Hf : release_notes_file entry.1 ∈ sort_reverse (versioned_files dir)).
    { rewrite <- Hfiles. apply list_elem_of_fmap. by exists entry.1. }
    rewrite (sort_reverse_perm (versioned_files dir)) in Hf.
    by apply versioned_files_glob in Hf as (_ & _ & ?). }
  exists (sort_reverse (versioned_files dir)), releases, bodies.
  split; [apply sort_reverse_perm|].
  split; [by apply sort_reverse_strict, versioned_files_NoDup|].
  split.
  { intros Hfree. apply desc_stems.
    - apply Forall_forall. intros f Hf.
      rewrite (sort_reverse_perm (versioned_files dir)) in Hf.
      by apply versioned_files_glob in Hf as (? & _).
    - intros a b Ha Hb. apply Hfree;
        by rewrite <- (sort_reverse_perm (versioned_files dir)).
    - by apply sort_reverse_strict, versioned_files_NoDup. }
  split; [rewrite get_release_notes_files_run; fold dir; by rewrite Hrel|].
  split; [done|]. split; [done|]. split; [done|].
  rewrite generate_release_notes_run. fold dir. unfold assembled.
  rewrite Hrel, Hdoc. simpl. split; [done|].
  by rewrite lookup_insert_eq.
Qed.

Lemma release_notes_order_witness :
  let env := Example.env Example.tags in
  let w := Example.world Example.notes None in
  let dir := release_notes_dir (files w) in
  exists sorted releases bodies,
    sorted ≡ₚ versioned_files dir /\
    StronglySorted desc sorted /\
    (prefix_free_stems (versioned_files dir) ->
     StronglySorted desc (map Path.stem sorted)) /\
    fst (get_release_notes_files env w)
    = Ok (entries_of (unreleased_release :: releases)) /\
    map release_notes_file releases = sorted /\
    map version releases = map Path.stem sorted /\
    Forall2 (fun entry body =>
               find_entry (release_notes_file entry.1) dir = Some body)
            (entries_of (unreleased_release :: releases)) bodies /\
    fst (generate_release_notes env w) = Ok tt /\
    text_files (files (snd (generate_release_notes env w))) !! release_notes_rst env
    = Some (join_all (zip_with entry_rst
                        (entries_of (unreleased_release :: releases)) bodies)).
Proof.
  intros env w dir.
  apply (release_notes_order env w).
  - apply (bool_decide_unpack _). vm_compute. exact I.
  - apply (bool_decide_unpack _). vm_compute. exact I.
  - intros f Hf.
    assert (E : versioned_files (release_notes_dir (files w))
                = ["1.0.0.rst"; "2.0.0.rst"]) by (vm_compute; reflexivity).
    rewrite E in Hf.
    apply elem_of_cons in Hf as [->|Hf].
    { destruct (release_of env "1.0.0.rst") as [r|e] eqn:Hr; [by eexists|].
      vm_compute in Hr. discriminate. }
    apply elem_of_cons in Hf as [->|Hf].
    { destruct (release_of env "2.0.0.rst") as [r|e] eqn:Hr; [by eexists|].
      vm_compute in Hr. discriminate. }
    by apply elem_of_nil in Hf.
Defined.

(** C1, a defect of the code. With the note files [unreleased.rst],
    [1.0.1.rst] and [1.0.rst], whose tags resolve, the generator yields
    the entry of 1.0 before the entry of 1.0.1 and gives 1.0 the tag
    v1.0.1 as its previous release, although the stem 1.0 is smaller than
    the stem 1.0.1: the versioned entries are not in descending order of
    their stems, and not from the newest to the oldest as the comment in
    the code asks. The sort compares the paths with their suffix, and
    [1.0.1.rst] is smaller than [1.0.rst]. *)
Theorem release_notes_order_prefix_stem :
  let env := Example.env Example.tags in
  let w := Example.world Example.notes_prefix None in
  "unreleased.rst" ∈ (release_notes_dir (files w)).*1 /\
  versioned_files (release_notes_dir (files w)) = ["1.0.1.rst"; "1.0.rst"] /\
  fst (get_release_notes_files env w)
  = Ok [(unreleased_release, Some "v1.0");
        ({| release_notes_file := "1.0.rst"; version := "1.0";
            git_tag := "v1.0"; date := "8 june 2019" |}, Some "v1.0.1");
        ({| release_notes_file := "1.0.1.rst"; version := "1.0.1";
            git_tag := "v1.0.1"; date := "2 october 2019" |}, None)] /\
  Str.lt "1.0" "1.0.1" /\
  Str.lt "1.0.1.rst" "1.0.rst" /\
  ~ StronglySorted desc (map Path.stem ["1.0.rst"; "1.0.1.rst"]).
Proof.
  intros env w.
  split; [apply (bool_decide_unpack _); vm_compute; exact I|].
  split; [vm_compute; reflexivity|].
  split; [vm_compute; reflexivity|].
  split; [reflexivity|]. split; [reflexivity|].
  intros H. apply StronglySorted_inv in H as [_ H].
  apply Forall_inv in H. vm_compute in H. discriminate H.
Qed.

(** ** The links to the previous release *)



(** [releases[idx + 1]] never raises: the index is in range whenever the
    loop takes that branch. *)
Lemma previous_release_in_range (releases : list Release) idx :
  (idx < length releases)%nat ->
  Z.of_nat idx <> (Z.of_nat (length releases) - 1)%Z ->
  is_Some (releases !! (idx + 1)%nat).
Proof. intros H1 H2. apply lookup_lt_is_Some. lia. Qed.


Lemma entries_of_length releases : length (entries_of releases) = length releases.
Proof. unfold entries_of. by rewrite length_imap. Qed.




(** ** The fields of a release *)

(** C5. [Release(file)] for a file whose stem is [unreleased] has the
    version [Unreleased], the tag [master] and the placeholder date
    [YYYY-MM-DD], and looks nothing up. For any other file, the version is
    the stem, the tag is [v] followed by the version, and the date is the
    commit time of that tag, converted to a calendar date and written as
    the day of the month without padding, the lower-cased month name and
    the year. *)
Theorem release_fields env file w :
  (Path.stem file = "unreleased" ->
   Release_init env file w
   = (Ok {| release_notes_file := file; version := "Unreleased";
            git_tag := "master"; date := "YYYY-MM-DD" |}, w)) /\
  (forall timestamp time,
     Path.stem file <> "unreleased" ->
     committed_date env ("refs/tags/" +:+ "v" +:+ Path.stem file) = Ok timestamp ->
     fromtimestamp env timestamp = Ok time ->
     Release_init env file w
     = (Ok {| release_notes_file := file; version := Path.stem file;
              git_tag := "v" +:+ Path.stem file;
              date := Str.of_N (day time) +:+ " "
                      +:+ month_name_lower (month time) +:+ " "
                      +:+ Str.of_N (year time) |},
        add_events w [EvGitTag ("refs/tags/" +:+ "v" +:+ Path.stem file)])).
Proof.
  rewrite Release_init_run. unfold release_of, git_events, tag_ref. split.
  - intros ->. simpl. by rewrite add_events_nil.
  - intros timestamp time Hne%String.eqb_neq Hdate Htime.
    by rewrite Hne, Hdate, Htime.
Qed.

Lemma release_fields_witness :
  let env := Example.env Example.tags in
  let w := Example.world Example.notes None in
  Release_init env "unreleased.rst" w = (Ok unreleased_release, w) /\
  Release_init env "1.0.0.rst" w
  = (Ok {| release_notes_file := "1.0.0.rst"; version := "1.0.0";
           git_tag := "v1.0.0"; date := "29 february 2020" |},
     add_events w [EvGitTag "refs/tags/v1.0.0"]).
Proof.
  intros env w. split.
  - apply (proj1 (release_fields env "unreleased.rst" w)). reflexivity.
  - apply (proj2 (release_fields env "1.0.0.rst" w) 1583000000%Z
             {| year := 2020; month := 2; day := 29 |}).
    + vm_compute. discriminate.
    + vm_compute. reflexivity.
    + vm_compute. reflexivity.
Defined.

(** ** A tag that does not resolve *)

Lemma release_of_Raise env f e :
  release_of env f = Raise e ->
  Path.stem f <> "unreleased" /\
  (committed_date env (tag_ref f) = Raise e \/
   exists timestamp, committed_date env (tag_ref f) = Ok timestamp /\
                     fromtimestamp env timestamp = Raise e).
Proof.
  unfold release_of.
  destruct (String.eqb_spec (Path.stem f) "unreleased") as [|Hne]; [done|].
  intros H. split; [done|]. revert H.
  destruct (committed_date env _) as [ts|e'] eqn:Hd; [|intros [= ->]; by left].
  destruct (fromtimestamp env ts) as [time|e'] eqn:Ht; [done|].
  intros [= ->]. right. by exists ts.
Qed.

Lemma release_of_Ok env f r :
  release_of env f = Ok r ->
  git_events f = [] \/
  (git_events f = [EvGitTag (tag_ref f)] /\
   exists timestamp time, committed_date env (tag_ref f) = Ok timestamp /\
                          fromtimestamp env timestamp = Ok time).
Proof.
  unfold release_of, git_events.
  destruct (String.eqb (Path.stem f) "unreleased"); [by left|].
  destruct (committed_date env _) as [ts|] eqn:Hd; [|done].
  destruct (fromtimestamp env ts) as [time|] eqn:Ht; [|done].
  intros _. right. split; [done|]. by exists ts, time.
Qed.

(** The list comprehension stops at the first release that raises: the
    lookups made are those of the files before it, which all succeeded,
    and its own. *)
Lemma releases_of_Raise env l e :
  releases_of env l = Raise e ->
  exists pre g post refs,
    l = (pre ++ g :: post)%list /\
    release_of env g = Raise e /\
    lookups env l = map EvGitTag (refs ++ [tag_ref g])%list /\
    Forall (fun ref => exists timestamp time,
              committed_date env ref = Ok timestamp /\
              fromtimestamp env timestamp = Ok time) refs.
Proof.
  induction l as [|f l IH]; simpl; [done|].
  destruct (release_of env f) as [r|e'] eqn:Hf.
  - destruct (releases_of env l) as [rs|e'] eqn:Hl; [done|].
    intros [= ->].
    destruct IH as (pre & g & post & refs & -> & Hg & Hlook & Hrefs); [done|].
    apply release_of_Ok in Hf as [Hev|[Hev Hres]]; rewrite Hev, Hlook.
    + by exists (f :: pre), g, post, refs.
    + exists (f :: pre), g, post, (tag_ref f :: refs).
      repeat split; try done. by constructor.
  - intros [= ->]. exists [], f, l, [].
    apply release_of_Raise in Hf as Hf'. destruct Hf' as [Hne%String.eqb_neq _].
    unfold git_events. rewrite Hne. by repeat split.
Qed.

Lemma releases_of_fails env l f e :
  f ∈ l -> release_of env f = Raise e -> exists e', releases_of env l = Raise e'.
Proof.
  induction l as [|g l IH]; [by intros ?%elem_of_nil|].
  intros [->|Hin]%elem_of_cons Hf; simpl.
  - rewrite Hf. by eexists.
  - destruct (release_of env g); [|by eexists].
    destruct (IH Hin Hf) as [e' ->]. by eexists.
Qed.

(** C6. If the tag of a versioned note file does not resolve, the run
    raises, and the exception [e] is the one that the first failing
    [Release] got from outside, as it is: the lookup of its tag or, had
    the lookup succeeded, the conversion of the commit time. The files are
    as before the run, so no document is written. The lookups made are
    those of the references [refs] before the failing one, which all
    succeeded, followed by the failing one, once. *)
Theorem tag_lookup_failure env w f e0 :
  f ∈ versioned_files (release_notes_dir (files w)) ->
  committed_date env (tag_ref f) = Raise e0 ->
  exists e g refs,
    generate_release_notes env w
    = (Raise e, add_events w (map EvGitTag (refs ++ [tag_ref g])%list)) /\
    files (snd (generate_release_notes env w)) = files w /\
    g ∈ versioned_files (release_notes_dir (files w)) /\
    (committed_date env (tag_ref g) = Raise e \/
     exists timestamp, committed_date env (tag_ref g) = Ok timestamp /\
                       fromtimestamp env timestamp = Raise e) /\
    Forall (fun ref => exists timestamp time,
              committed_date env ref = Ok timestamp /\
              fromtimestamp env timestamp = Ok time) refs /\
    tag_ref g ∉ refs.
Proof.
  intros Hf Hdate. set (dir := release_notes_dir (files w)) in *.
  assert (Hrel : release_of env f = Raise e0).
  { unfold release_of. by rewrite (versioned_stem dir f Hf), Hdate. }
  destruct (releases_of_fails env (note_list dir) f e0) as [e He]; [|done|].
  { rewrite note_list_eq. right. by rewrite sort_reverse_perm. }
  destruct (releases_of_Raise env _ e He)
    as (pre & g & post & refs & Hlist & Hg & Hlook & Hrefs).
  exists e, g, refs.
  rewrite generate_release_notes_run. fold dir. unfold assembled.
  rewrite He, Hlook. split; [done|]. split; [done|].
  apply release_of_Raise in Hg as Hg'. destruct Hg' as [Hstem Hcause].
  split; [|split; [done|split; [done|]]].
  - assert (Hin : g ∈ note_list dir).
    { rewrite Hlist. apply elem_of_app. right. by left. }
    rewrite note_list_eq in Hin. apply elem_of_cons in Hin as [->|Hin]; [done|].
    by rewrite sort_reverse_perm in Hin.
  - intros Hin. rewrite Forall_forall in Hrefs.
    destruct (Hrefs _ Hin) as (ts & time & Hts & Htime).
    destruct Hcause as [Hc|(ts' & Hc & Hc')].
    + rewrite Hc in Hts. discriminate.
    + rewrite Hc in Hts. injection Hts as ->.
      rewrite Hc' in Htime. discriminate.
Qed.

Lemma tag_lookup_failure_witness :
  let env := Example.env [("refs/tags/v2.0.0", 1590000000%Z)] in
  let w := Example.world Example.notes None in
  exists e g refs,
    generate_release_notes env w
    = (Raise e, add_events w (map EvGitTag (refs ++ [tag_ref g])%list)) /\
    files (snd (generate_release_notes env w)) = files w /\
    g ∈ versioned_files (release_notes_dir (files w)) /\
    (committed_date env (tag_ref g) = Raise e \/
     exists timestamp, committed_date env (tag_ref g) = Ok timestamp /\
                       fromtimestamp env timestamp = Raise e) /\
    Forall (fun ref => exists timestamp time,
              committed_date env ref = Ok timestamp /\
              fromtimestamp env timestamp = Ok time) refs /\
    tag_ref g ∉ refs.
Proof.
  intros env w.
  apply (tag_lookup_failure env w "1.0.0.rst" ValueError).
  - apply (bool_decide_unpack _). vm_compute. exact I.
  - vm_compute. reflexivity.
Defined.

(** ** Running twice *)

Lemma note_list_permutation dir dir' :
  NoDup dir.*1 -> dir ≡ₚ dir' -> note_list dir = note_list dir'.
Proof.
  intros Hnd Hp. rewrite !note_list_eq. f_equal.
  apply sort_reverse_permutation; [by apply versioned_files_NoDup|].
  by apply versioned_files_permutation.
Qed.

Lemma document_of_permutation dir dir' entries rst :
  NoDup dir.*1 -> dir ≡ₚ dir' ->
  document_of dir entries rst = document_of dir' entries rst.
Proof.
  intros Hnd Hp. revert rst.
  induction entries as [|entry entries IH]; intros rst; simpl; [done|].
  rewrite (find_entry_permutation _ dir dir') by done.
  destruct (find_entry _ dir'); [apply IH|done].
Qed.

(** The text assembled does not depend on the order in which the
    directory is enumerated. *)
Lemma assembled_permutation env dir dir' :
  NoDup dir.*1 -> dir ≡ₚ dir' -> assembled env dir = assembled env dir'.
Proof.
  intros Hnd Hp. unfold assembled.
  rewrite (note_list_permutation dir dir') by done.
  destruct (releases_of env _); [|done].
  by apply document_of_permutation.
Qed.

(** C7. Run the assembler, then run it again in the world the first run
    left, with the same files in the release notes directory (enumerated
    in any order) and the same resolution of tags: both runs end the same
    way, the second run leaves every text file as the first run left it,
    and when the runs succeed the document exists with the same text
    after each. *)
Theorem rerun_identical env w dir2 :
  NoDup (release_notes_dir (files w)).*1 ->
  release_notes_dir (files w) ≡ₚ dir2 ->
  let first := generate_release_notes env w in
  let second := generate_release_notes env (enumerate_again (snd first) dir2) in
  fst second = fst first /\
  text_files (files (snd second)) = text_files (files (snd first)) /\
  (fst first = Ok tt ->
   exists rst,
     assembled env (release_notes_dir (files w)) = Ok rst /\
     text_files (files (snd first)) !! release_notes_rst env = Some rst /\
     text_files (files (snd second)) !! release_notes_rst env = Some rst).
Proof.
  intros Hnd Hp first second. subst first second.
  rewrite !generate_release_notes_run.
  assert (Hsame : forall w1,
    release_notes_dir (files (enumerate_again w1 dir2)) = dir2) by done.
  rewrite !Hsame. rewrite <- (assembled_permutation env _ dir2 Hnd Hp).
  destruct (assembled env (release_notes_dir (files w))) as [rst|e]; simpl.
  - rewrite insert_insert_eq. split; [done|]. split; [done|].
    intros _. exists rst. by rewrite lookup_insert_eq.
  - done.
Qed.

Lemma rerun_identical_witness :
  let env := Example.env Example.tags in
  let w := Example.world Example.notes None in
  let first := generate_release_notes env w in
  let second :=
    generate_release_notes env (enumerate_again (snd first) (reverse Example.notes)) in
  fst second = fst first /\
  text_files (files (snd second)) = text_files (files (snd first)) /\
  (fst first = Ok tt ->
   exists rst,
     assembled env (release_notes_dir (files w)) = Ok rst /\
     text_files (files (snd first)) !! release_notes_rst env = Some rst /\
     text_files (files (snd second)) !! release_notes_rst env = Some rst).
Proof.
  intros env w.
  apply (rerun_identical env w (reverse Example.notes)).
  - apply (bool_decide_unpack _). vm_compute. exact I.
  - symmetry. apply reverse_Permutation.
Defined.

(** ** A directory without the unreleased file *)

Lemma find_entry_None name (dir : list (string * string)) :
  name ∉ dir.*1 -> find_entry name dir = None.
Proof.
  intros Hnot. destruct (find_entry name dir) as [body|] eqn:E; [|done].
  destruct Hnot. clear -E.
  induction dir as [|[n b] dir IH]; simpl in *; [done|].
  destruct (String.eqb_spec n name) as [->|Hne]; [by left|].
  right. by apply IH.
Qed.

Lemma releases_of_note_list env dir releases :
  releases_of env (note_list dir) = Ok releases ->
  exists rest, releases = unreleased_release :: rest.
Proof.
  rewrite note_list_eq. simpl.
  destruct (releases_of env (sort_reverse _)) as [rest|]; [|done].
  intros [= <-]. by exists rest.
Qed.

(** C10. The path of the unreleased notes is put at the head of the list
    whether or not the file exists. When the directory has no such file,
    the run raises and leaves the files as they were, so no document is
    written. If the generator yields at all (every tag resolves), the
    first entry it yields is the unreleased one, and the exception of the
    run is the one raised when the body of that entry is read. *)
Theorem missing_unreleased_file env w :
  "unreleased.rst" ∉ (release_notes_dir (files w)).*1 ->
  head (note_list (release_notes_dir (files w))) = Some "unreleased.rst" /\
  (exists e, fst (generate_release_notes env w) = Raise e) /\
  files (snd (generate_release_notes env w)) = files w /\
  (forall entries,
     fst (get_release_notes_files env w) = Ok entries ->
     (exists previous rest, entries = (unreleased_release, previous) :: rest) /\
     fst (generate_release_notes env w)
     = Raise (FileNotFoundError "unreleased.rst")).
Proof.
  intros Hmissing%find_entry_None. split; [done|].
  rewrite generate_release_notes_run, get_release_notes_files_run.
  unfold assembled.
  destruct (releases_of env _) as [releases|e] eqn:Hrel; simpl.
  - apply releases_of_note_list in Hrel as [rest ->].
    unfold entries_of. rewrite imap_cons. simpl. rewrite Hmissing.
    split; [by eexists|]. split; [done|].
    intros entries [= <-]. split; [by eexists _, _|done].
  - split; [by eexists|]. split; [done|]. by intros entries [=].
Qed.

Lemma missing_unreleased_file_witness :
  let env := Example.env Example.tags in
  let w := Example.world [("1.0.0.rst", "First release.")] None in
  fst (get_release_notes_files env w)
  = Ok [(unreleased_release, Some "v1.0.0");
        ({| release_notes_file := "1.0.0.rst"; version := "1.0.0";
            git_tag := "v1.0.0"; date := "29 february 2020" |}, None)] /\
  fst (generate_release_notes env w) = Raise (FileNotFoundError "unreleased.rst") /\
  files (snd (generate_release_notes env w)) = files w.
Proof.
  intros env w.
  assert (Hyield : fst (get_release_notes_files env w)
    = Ok [(unreleased_release, Some "v1.0.0");
          ({| release_notes_file := "1.0.0.rst"; version := "1.0.0";
              git_tag := "v1.0.0"; date := "29 february 2020" |}, None)])
    by (vm_compute; reflexivity).
  destruct (missing_unreleased_file env w) as (_ & _ & Hfiles & Hfirst).
  { apply (bool_decide_unpack _). vm_compute. exact I. }
  split; [exact Hyield|]. split; [|exact Hfiles].
  exact (proj2 (Hfirst _ Hyield)).
Defined.

(** ** The coverage badge *)

Lemma build_python_coverage_badge_run env output_path w line_rate p :
  python_coverage_xml (files w) = Some line_rate ->
  int_round (line_rate * 100)%float = Ok p ->
  build_python_coverage_badge env output_path w
  = if (50 <? p)%Z
    then badge_rendered env output_path w
           (coverage_badge_args env p (if (80 <? p)%Z then "green" else "red"))
    else (Raise (coverage_way_low p), w).
Proof.
  intros Hxml Hround.
  unfold build_python_coverage_badge, badge_rendered, coverage_way_low.
  rewrite bind_run. unfold get_files at 1. rewrite Hxml, Hround.
  unfold badge, create_file, assert, lift. run_monad. cbn [fst snd files events].
  destruct (50 <? p)%Z; [|done].
  destruct (render_badge env _); [|done].
  cbn [fst snd files events]. by rewrite <- app_assoc.
Qed.

(** C3. With a line rate of 0.85 in the coverage report the percentage is
    85 and the badge is rendered with the text [85%] on the right in the
    colour green; with 0.55 the percentage is 55 and the badge is rendered
    with the text [55%] in the colour red; with 0.40 the percentage is 40
    and the step raises the assertion on the minimum coverage and leaves
    the world as it was: no badge is rendered and none is written. *)
Theorem coverage_badge_examples env output_path w :
  (python_coverage_xml (files w) = Some 0.85%float ->
   int_round (0.85 * 100)%float = Ok 85%Z /\
   build_python_coverage_badge env output_path w
   = badge_rendered env output_path w
       {| left_text := "line coverage";
          right_text := "85%";
          left_color := None;
          right_color := "green";
          logo := Some (TSFPGA_DOC env // "sphinx" // "Python-logo-notext.svg");
          embed_logo := true;
          left_link := Some "https://tsfpga.com/python_coverage_html";
          right_link := Some "https://tsfpga.com/python_coverage_html" |}) /\
  (python_coverage_xml (files w) = Some 0.55%float ->
   int_round (0.55 * 100)%float = Ok 55%Z /\
   build_python_coverage_badge env output_path w
   = badge_rendered env output_path w
       {| left_text := "line coverage";
          right_text := "55%";
          left_color := None;
          right_color := "red";
          logo := Some (TSFPGA_DOC env // "sphinx" // "Python-logo-notext.svg");
          embed_logo := true;
          left_link := Some "https://tsfpga.com/python_coverage_html";
          right_link := Some "https://tsfpga.com/python_coverage_html" |}) /\
  (python_coverage_xml (files w) = Some 0.40%float ->
   int_round (0.40 * 100)%float = Ok 40%Z /\
   build_python_coverage_badge env output_path w
   = (Raise (AssertionError "Coverage is way low: 40. Something is wrong."), w)).
Proof.
  assert (H85 : int_round (0.85 * 100)%float = Ok 85%Z) by (vm_compute; reflexivity).
  assert (H55 : int_round (0.55 * 100)%float = Ok 55%Z) by (vm_compute; reflexivity).
  assert (H40 : int_round (0.40 * 100)%float = Ok 40%Z) by (vm_compute; reflexivity).
  repeat split; try done.
  - by rewrite (build_python_coverage_badge_run env output_path w _ _ H H85).
  - by rewrite (build_python_coverage_badge_run env output_path w _ _ H H55).
  - by rewrite (build_python_coverage_badge_run env output_path w _ _ H H40).
Qed.

Lemma coverage_badge_examples_witness :
  let env := Example.env Example.tags in
  build_python_coverage_badge env "badges" (Example.world [] (Some 0.85%float))
  = badge_rendered env "badges" (Example.world [] (Some 0.85%float))
      {| left_text := "line coverage";
         right_text := "85%";
         left_color := None;
         right_color := "green";
         logo := Some (TSFPGA_DOC env // "sphinx" // "Python-logo-notext.svg");
         embed_logo := true;
         left_link := Some "https://tsfpga.com/python_coverage_html";
         right_link := Some "https://tsfpga.com/python_coverage_html" |} /\
  build_python_coverage_badge env "badges" (Example.world [] (Some 0.55%float))
  = badge_rendered env "badges" (Example.world [] (Some 0.55%float))
      {| left_text := "line coverage";
         right_text := "55%";
         left_color := None;
         right_color := "red";
         logo := Some (TSFPGA_DOC env // "sphinx" // "Python-logo-notext.svg");
         embed_logo := true;
         left_link := Some "https://tsfpga.com/python_coverage_html";
         right_link := Some "https://tsfpga.com/python_coverage_html" |} /\
  build_python_coverage_badge env "badges" (Example.world [] (Some 0.40%float))
  = (Raise (AssertionError "Coverage is way low: 40. Something is wrong."),
     Example.world [] (Some 0.40%float)).
Proof.
  intros env. split; [|split].
  - apply (proj1 (coverage_badge_examples env "badges"
                    (Example.world [] (Some 0.85%float)))). reflexivity.
  - apply (proj1 (proj2 (coverage_badge_examples env "badges"
                           (Example.world [] (Some 0.55%float))))). reflexivity.
  - apply (proj2 (proj2 (coverage_badge_examples env "badges"
                           (Example.world [] (Some 0.40%float))))). reflexivity.
Defined.

(** C9. The thresholds are strict. Whatever line rate the report holds,
    with [p] the percentage it rounds to: when [p] is at most 50 (so also
    when it is exactly 50) the step raises the assertion on the minimum
    coverage and renders nothing; when [p] is above 50 and at most 80 (so
    also when it is exactly 80) the badge is rendered with the colour
    red; only when [p] is above 80 it is rendered with the colour green.
    In both cases the text on the right is [p] followed by the percent
    sign. The line rates 0.5 and 0.8 round to exactly 50 and 80. *)
Theorem coverage_thresholds_strict env output_path w line_rate p :
  python_coverage_xml (files w) = Some line_rate ->
  int_round (line_rate * 100)%float = Ok p ->
  ((p <= 50)%Z ->
   build_python_coverage_badge env output_path w = (Raise (coverage_way_low p), w)) /\
  ((50 < p <= 80)%Z ->
   build_python_coverage_badge env output_path w
   = badge_rendered env output_path w
       {| left_text := "line coverage";
          right_text := Str.of_Z p +:+ "%";
          left_color := None;
          right_color := "red";
          logo := Some (TSFPGA_DOC env // "sphinx" // "Python-logo-notext.svg");
          embed_logo := true;
          left_link := Some "https://tsfpga.com/python_coverage_html";
          right_link := Some "https://tsfpga.com/python_coverage_html" |}) /\
  ((80 < p)%Z ->
   build_python_coverage_badge env output_path w
   = badge_rendered env output_path w
       {| left_text := "line coverage";
          right_text := Str.of_Z p +:+ "%";
          left_color := None;
          right_color := "green";
          logo := Some (TSFPGA_DOC env // "sphinx" // "Python-logo-notext.svg");
          embed_logo := true;
          left_link := Some "https://tsfpga.com/python_coverage_html";
          right_link := Some "https://tsfpga.com/python_coverage_html" |}) /\
  int_round (0.5 * 100)%float = Ok 50%Z /\
  int_round (0.8 * 100)%float = Ok 80%Z.
Proof.
  intros Hxml Hround.
  rewrite (build_python_coverage_badge_run env output_path w _ _ Hxml Hround).
  repeat split.
  - intros Hp. by destruct (Z.ltb_spec 50 p); [lia|].
  - intros Hp. destruct (Z.ltb_spec 50 p); [|lia].
    by destruct (Z.ltb_spec 80 p); [lia|].
  - intros Hp. destruct (Z.ltb_spec 50 p); [|lia].
    by destruct (Z.ltb_spec 80 p); [|lia].
Qed.

Lemma coverage_thresholds_strict_witness :
  let env := Example.env Example.tags in
  build_python_coverage_badge env "badges" (Example.world [] (Some 0.5%float))
  = (Raise (AssertionError "Coverage is way low: 50. Something is wrong."),
     Example.world [] (Some 0.5%float)) /\
  build_python_coverage_badge env "badges" (Example.world [] (Some 0.8%float))
  = badge_rendered env "badges" (Example.world [] (Some 0.8%float))
      {| left_text := "line coverage";
         right_text := "80%";
         left_color := None;
         right_color := "red";
         logo := Some (TSFPGA_DOC env // "sphinx" // "Python-logo-notext.svg");
         embed_logo := true;
         left_link := Some "https://tsfpga.com/python_coverage_html";
         right_link := Some "https://tsfpga.com/python_coverage_html" |}.
Proof.
  intros env. split.
  - apply (coverage_thresholds_strict env "badges"
             (Example.world [] (Some 0.5%float)) 0.5%float 50);
      [reflexivity|vm_compute; reflexivity|lia].
  - apply (coverage_thresholds_strict env "badges"
             (Example.world [] (Some 0.8%float)) 0.8%float 80);
      [reflexivity|vm_compute; reflexivity|lia].
Defined.

(** ** The events of a computation *)

Section EmitsOnly.

Context (P : Event -> bool).

Lemma emits_only_ret {A} (a : A) : emits_only P (ret a).
Proof. intros w. exists []. by rewrite app_nil_r. Qed.

Lemma emits_only_raise {A} e : emits_only P (@raise A e).
Proof. intros w. exists []. by rewrite app_nil_r. Qed.

Lemma emits_only_lift {A} (r : Result A) : emits_only P (lift r).
Proof. destruct r; [apply emits_only_ret|apply emits_only_raise]. Qed.

Lemma emits_only_assert cond msg : emits_only P (assert cond msg).
Proof. destruct cond; [apply emits_only_ret|apply emits_only_raise]. Qed.

Lemma emits_only_get_files : emits_only P get_files.
Proof. intros w. exists []. by rewrite app_nil_r. Qed.

Lemma emits_only_set_files fs : emits_only P (set_files fs).
Proof. intros w. exists []. by rewrite app_nil_r. Qed.

Lemma emits_only_emit ev : P ev = true -> emits_only P (emit ev).
Proof. intros H w. exists [ev]. simpl. by rewrite H. Qed.

Lemma emits_only_bind {A B} (m : M A) (k : A -> M B) :
  emits_only P m -> (forall a, emits_only P (k a)) -> emits_only P (m ≫= k).
Proof.
  intros Hm Hk w. rewrite bind_run.
  destruct (Hm w) as (evs & Hevs & Hall).
  destruct (m w) as [[a|e] w1]; simpl in Hevs.
  - destruct (Hk a w1) as (evs' & Hevs' & Hall').
    exists (evs ++ evs'). rewrite Hevs', Hevs, app_assoc. split; [done|].
    rewrite forallb_app. by rewrite Hall, Hall'.
  - by exists evs.
Qed.

Lemma emits_only_for_each {A B} (body : A -> B -> M B) l acc :
  (forall x b, emits_only P (body x b)) -> emits_only P (for_each body l acc).
Proof.
  intros Hbody. revert acc. induction l as [|x l IH]; intros acc; simpl.
  - apply emits_only_ret.
  - apply emits_only_bind; [apply Hbody|apply IH].
Qed.

Lemma emits_only_comprehension {A B} (f : A -> M B) l :
  (forall x, emits_only P (f x)) -> emits_only P (comprehension f l).
Proof.
  intros Hf. induction l as [|x l IH]; simpl.
  - apply emits_only_ret.
  - apply emits_only_bind; [apply Hf|]. intros y.
    apply emits_only_bind; [apply IH|]. intros ys. apply emits_only_ret.
Qed.

End EmitsOnly.

Ltac emits :=
  repeat first
    [ apply emits_only_ret
    | apply emits_only_raise
    | apply emits_only_lift
    | apply emits_only_assert
    | apply emits_only_get_files
    | apply emits_only_set_files
    | apply emits_only_emit; reflexivity
    | apply emits_only_bind; [|intros ?] ].

Section OtherSteps.

Context (env : Env).

Lemma emits_delete path : emits_only other_event (delete env path).
Proof. unfold delete. emits. Qed.

Lemma emits_create_directory path :
  emits_only other_event (create_directory env path).
Proof. unfold create_directory. emits. Qed.

Lemma emits_create_file path contents :
  emits_only other_event (create_file path contents).
Proof. unfold create_file. emits. Qed.

Lemma emits_check_call cmd cwd : emits_only other_event (check_call env cmd cwd).
Proof.
  unfold check_call. emits.
  destruct (run_process env cmd cwd _) as [[] fs']; emits.
Qed.

Lemma emits_Release_init file : emits_only other_event (Release_init env file).
Proof.
  unfold Release_init, get_git_date_from_tag.
  destruct (String.eqb _ _); emits.
Qed.

Lemma emits_release_notes_step entry rst :
  emits_only other_event (release_notes_step entry rst).
Proof.
  destruct entry as [release previous]. unfold release_notes_step, read_file.
  emits. destruct (find_entry _ _); emits.
Qed.

Lemma emits_generate_release_notes :
  emits_only other_event (generate_release_notes env).
Proof.
  unfold generate_release_notes, get_release_notes_files, glob_rst.
  apply emits_only_bind.
  - apply emits_only_bind; [emits|]. intros names.
    apply emits_only_bind; [|intros; emits].
    apply emits_only_comprehension, emits_Release_init.
  - intros entries. apply emits_only_bind.
    + apply emits_only_for_each, emits_release_notes_step.
    + intros rst. apply emits_create_file.
Qed.

Lemma emits_generate_registers : emits_only other_event (generate_registers env).
Proof. apply emits_check_call. Qed.

Lemma emits_generate_apidoc : emits_only other_event (generate_apidoc env).
Proof.
  unfold generate_apidoc, run_apidoc.
  apply emits_only_bind; [apply emits_delete|intros; apply emits_check_call].
Qed.

Lemma emits_generate_sphinx_index :
  emits_only other_event (generate_sphinx_index env).
Proof.
  unfold generate_sphinx_index, get_readme_rst.
  apply emits_only_bind; [emits|intros; apply emits_create_file].
Qed.

Lemma emits_build_sphinx build_path output_path :
  emits_only other_event (build_sphinx env build_path output_path).
Proof.
  unfold build_sphinx, path_exists, print.
  apply emits_only_bind; [apply emits_check_call|intros]. emits.
Qed.

Lemma emits_build_information_badges output_path :
  emits_only other_event (build_information_badges env output_path).
Proof.
  unfold build_information_badges, badge.
  repeat (apply emits_only_bind; [emits|intros];
          apply emits_only_bind; [apply emits_create_file|intros]).
  apply emits_only_bind; [emits|intros]. apply emits_create_file.
Qed.

End OtherSteps.

(** * Further properties of the release notes *)

Lemma releases_of_note_list_inv env dir releases :
  releases_of env (note_list dir) = Ok releases ->
  exists rest,
    releases = unreleased_release :: rest /\
    Forall2 (fun f r => release_of env f = Ok r)
            (sort_reverse (versioned_files dir)) rest.
Proof.
  intros H. destruct (releases_of_note_list env dir releases H) as [rest ->].
  exists rest. split; [done|].
  apply releases_of_inv in H. rewrite note_list_eq in H.
  by apply Forall2_cons_1 in H as [_ ?].
Qed.

Lemma get_release_notes_files_Ok env w entries :
  fst (get_release_notes_files env w) = Ok entries ->
  exists rest,
    entries = entries_of (unreleased_release :: rest) /\
    Forall2 (fun f r => release_of env f = Ok r)
            (sort_reverse (versioned_files (release_notes_dir (files w)))) rest.
Proof.
  rewrite get_release_notes_files_run. cbn [fst].
  destruct (releases_of env _) as [releases|] eqn:Hrel; [|done].
  intros [= <-].
  apply releases_of_note_list_inv in Hrel as (rest & -> & Hall). by exists rest.
Qed.

Lemma entries_of_files releases :
  map (fun entry => release_notes_file entry.1) (entries_of releases)
  = map release_notes_file releases.
Proof.
  rewrite <- (entries_of_fst releases) at 2.
  generalize (entries_of releases). intros l.
  induction l as [|entry l IH]; simpl; [done|]. by rewrite IH.
Qed.

(** The generator yields one entry for the unreleased notes and one for
    each other entry of the directory whose name ends in [.rst], and
    nothing else: other files of the directory are passed over. *)
Theorem yielded_files env w entries :
  fst (get_release_notes_files env w) = Ok entries ->
  length entries = S (length (versioned_files (release_notes_dir (files w)))) /\
  forall f,
    f ∈ map (fun entry => release_notes_file entry.1) entries <->
    f = "unreleased.rst" \/
    (f ∈ (release_notes_dir (files w)).*1 /\ Str.endswith f ".rst" = true).
Proof.
  intros (rest & -> & Hall)%get_release_notes_files_Ok.
  set (dir := release_notes_dir (files w)) in *.
  assert (Hfiles : map release_notes_file rest = sort_reverse (versioned_files dir))
    by (by eapply releases_files).
  split.
  - rewrite entries_of_length. simpl. f_equal.
    rewrite <- (length_map release_notes_file), Hfiles.
    by rewrite sort_reverse_perm.
  - intros f.
    replace (map (fun entry => release_notes_file entry.1)
               (entries_of (unreleased_release :: rest)))
      with ("unreleased.rst" :: sort_reverse (versioned_files dir)).
    2:{ by rewrite entries_of_files, <- Hfiles. }
    rewrite elem_of_cons, sort_reverse_perm.
    unfold versioned_files. rewrite !list_elem_of_filter.
    destruct (decide (f = "unreleased.rst")); tauto.
Qed.

Lemma yielded_files_witness :
  let env := Example.env Example.tags in
  let w := Example.world Example.notes None in
  "readme.txt" ∈ (release_notes_dir (files w)).*1 /\
  "readme.txt" ∉ map (fun entry : Release * option string => release_notes_file entry.1)
    [(unreleased_release, Some "v2.0.0");
     ({| release_notes_file := "2.0.0.rst"; version := "2.0.0";
         git_tag := "v2.0.0"; date := "20 may 2020" |}, Some "v1.0.0");
     ({| release_notes_file := "1.0.0.rst"; version := "1.0.0";
         git_tag := "v1.0.0"; date := "29 february 2020" |}, None)].
Proof.
  intros env w. split; [apply (bool_decide_unpack _); vm_compute; exact I|].
  intros Hin.
  assert (Hyield : fst (get_release_notes_files env w)
    = Ok [(unreleased_release, Some "v2.0.0");
          ({| release_notes_file := "2.0.0.rst"; version := "2.0.0";
              git_tag := "v2.0.0"; date := "20 may 2020" |}, Some "v1.0.0");
          ({| release_notes_file := "1.0.0.rst"; version := "1.0.0";
              git_tag := "v1.0.0"; date := "29 february 2020" |}, None)])
    by (vm_compute; reflexivity).
  apply (proj2 (yielded_files env w _ Hyield)) in Hin.
  destruct Hin as [Hin|[_ Hin]]; vm_compute in Hin; discriminate Hin.
Defined.

(** The entry of the unreleased notes comes first and is the only one
    with the tag [master]: every entry after it has the stem of its file
    as version, [v] followed by the version as tag, and a version other
    than [unreleased]. *)
Theorem one_master_entry env w entries :
  fst (get_release_notes_files env w) = Ok entries ->
  exists previous rest,
    entries = (unreleased_release, previous) :: rest /\
    Forall (fun entry : Release * option string =>
              version entry.1 = Path.stem (release_notes_file entry.1) /\
              git_tag entry.1 = "v" +:+ version entry.1 /\
              git_tag entry.1 <> "master" /\
              version entry.1 <> "unreleased") rest.
Proof.
  intros (releases & -> & Hall)%get_release_notes_files_Ok.
  set (dir := release_notes_dir (files w)) in *.
  unfold entries_of. rewrite imap_cons. eexists _, _. split; [done|].
  apply Forall_forall. intros entry Hentry.
  assert (Hin : entry.1 ∈ releases).
  { apply list_elem_of_lookup in Hentry as [i Hi].
    rewrite list_lookup_imap in Hi.
    destruct (releases !! i) as [r|] eqn:Hr; [|done].
    injection Hi as <-. simpl. by eapply list_elem_of_lookup_2. }
  apply list_elem_of_lookup in Hin as [i Hi].
  destruct (Forall2_lookup_r _ _ _ _ _ Hall Hi) as (f & Hf & Hrel).
  assert (Hver : f ∈ versioned_files dir).
  { rewrite <- (sort_reverse_perm (versioned_files dir)).
    by eapply list_elem_of_lookup_2. }
  pose proof (versioned_stem dir f Hver) as Hstem.
  destruct (release_of_version env f _ Hstem Hrel) as [Hv Ht].
  rewrite (release_of_file env f _ Hrel), Hv, Ht.
  apply String.eqb_neq in Hstem. by repeat split.
Qed.

Lemma one_master_entry_witness :
  let env := Example.env Example.tags in
  let w := Example.world Example.notes None in
  exists previous rest,
    [(unreleased_release, Some "v2.0.0");
     ({| release_notes_file := "2.0.0.rst"; version := "2.0.0";
         git_tag := "v2.0.0"; date := "20 may 2020" |}, Some "v1.0.0");
     ({| release_notes_file := "1.0.0.rst"; version := "1.0.0";
         git_tag := "v1.0.0"; date := "29 february 2020" |}, None)]
    = (unreleased_release, previous) :: rest /\
    Forall (fun entry : Release * option string =>
              version entry.1 = Path.stem (release_notes_file entry.1) /\
              git_tag entry.1 = "v" +:+ version entry.1 /\
              git_tag entry.1 <> "master" /\
              version entry.1 <> "unreleased") rest.
Proof.
  intros env w.
  apply (one_master_entry env w). vm_compute. reflexivity.
Defined.

Lemma lookups_resolved env l :
  (forall f, f ∈ l -> String.eqb (Path.stem f) "unreleased" = false) ->
  (forall f, f ∈ l -> exists r, release_of env f = Ok r) ->
  lookups env l = map (fun f => EvGitTag (tag_ref f)) l.
Proof.
  induction l as [|f l IH]; intros Hstem Hres; simpl; [done|].
  destruct (Hres f) as [r ->]; [by left|].
  unfold git_events. rewrite (Hstem f) by (by left). simpl. f_equal.
  apply IH; intros; [apply Hstem|apply Hres]; by right.
Qed.

(** When every tag resolves, the generator looks up one reference for
    each versioned note file, [refs/tags/v] followed by the stem, in the
    order of the entries, and nothing for the unreleased notes. *)
Theorem one_lookup_per_version env w :
  let dir := release_notes_dir (files w) in
  (forall f, f ∈ versioned_files dir -> exists r, release_of env f = Ok r) ->
  events (snd (get_release_notes_files env w))
  = events w
    ++ map (fun f => EvGitTag ("refs/tags/" +:+ "v" +:+ Path.stem f))
           (sort_reverse (versioned_files dir)).
Proof.
  intros dir Hres. rewrite get_release_notes_files_run. fold dir.
  cbn [snd add_events events]. f_equal.
  rewrite note_list_eq.
  change (lookups env ("unreleased.rst" :: sort_reverse (versioned_files dir)))
    with (lookups env (sort_reverse (versioned_files dir))).
  apply lookups_resolved; intros f Hf;
    rewrite (sort_reverse_perm (versioned_files dir)) in Hf;
    [by apply (versioned_stem dir)|by apply Hres].
Qed.

Lemma one_lookup_per_version_witness :
  let env := Example.env Example.tags in
  let w := Example.world Example.notes None in
  events (snd (get_release_notes_files env w))
  = events w
    ++ map (fun f => EvGitTag ("refs/tags/" +:+ "v" +:+ Path.stem f))
           (sort_reverse (versioned_files (release_notes_dir (files w)))).
Proof.
  intros env w.
  apply (one_lookup_per_version env w).
  intros f Hf.
  assert (E : versioned_files (release_notes_dir (files w))
              = ["1.0.0.rst"; "2.0.0.rst"]) by (vm_compute; reflexivity).
  rewrite E in Hf.
  apply elem_of_cons in Hf as [->|Hf].
  { destruct (release_of env "1.0.0.rst") as [r|e] eqn:Hr; [by eexists|].
    vm_compute in Hr. discriminate Hr. }
  apply elem_of_cons in Hf as [->|Hf].
  { destruct (release_of env "2.0.0.rst") as [r|e] eqn:Hr; [by eexists|].
    vm_compute in Hr. discriminate Hr. }
  by apply elem_of_nil in Hf.
Defined.

(** A run of [generate_release_notes] writes the whole document or
    nothing. It never changes the release notes directory, the coverage
    report or a text file other than the document; when it returns, the
    document holds the assembled text; when it raises, every file is as
    it was before, so a document of an earlier run is left as it is. *)
Theorem release_notes_all_or_nothing env w :
  let run := generate_release_notes env w in
  release_notes_dir (files (snd run)) = release_notes_dir (files w) /\
  python_coverage_xml (files (snd run)) = python_coverage_xml (files w) /\
  (forall path, path <> release_notes_rst env ->
     text_files (files (snd run)) !! path = text_files (files w) !! path) /\
  match fst run with
  | Ok _ =>
      exists rst,
        assembled env (release_notes_dir (files w)) = Ok rst /\
        text_files (files (snd run)) !! release_notes_rst env = Some rst
  | Raise e =>
      assembled env (release_notes_dir (files w)) = Raise e /\
      files (snd run) = files w
  end.
Proof.
  intros run. subst run. rewrite generate_release_notes_run.
  destruct (assembled env _) as [rst|e]; simpl.
  - repeat split; try done.
    + intros path Hne. by rewrite lookup_insert_ne.
    + exists rst. by rewrite lookup_insert_eq.
  - done.
Qed.

(** ** The heading of an entry *)

Lemma length_repeat c n : String.length (Str.repeat c n) = n.
Proof. induction n as [|n IH]; simpl; [done|]. by rewrite IH. Qed.

(** One turn of the loop appends the heading, a line of dashes that is
    exactly as long as the heading, a blank line, the link line if there
    is a previous release, a blank line and the body of the note file. *)
Theorem heading_underlined release previous rst w body :
  find_entry (release_notes_file release) (release_notes_dir (files w)) = Some body ->
  let heading := version release +:+ " (" +:+ date release +:+ ")" in
  exists underline,
    String.length underline = String.length heading /\
    (forall i c, String.get i underline = Some c -> c = "-"%char) /\
    release_notes_step (release, previous) rst w
    = (Ok (rst +:+ heading +:+ newline +:+ underline +:+ newline +:+ newline
           +:+ match previous with
               | Some tag => diff_line tag release
               | None => ""
               end
           +:+ newline +:+ body +:+ newline), w).
Proof.
  intros Hbody heading.
  exists (Str.repeat "-" (String.length heading)).
  split; [apply length_repeat|]. split.
  - generalize (String.length heading). intros n.
    induction n as [|n IH]; intros i c; simpl; [done|].
    destruct i as [|i]; [by intros [= <-]|apply IH].
  - rewrite release_notes_step_run. cbn [fst]. rewrite Hbody.
    do 2 f_equal. unfold entry_rst, heading_rst. cbn [fst snd]. fold heading.
    by rewrite !append_assoc.
Qed.

Lemma heading_underlined_witness :
  let w := Example.world Example.notes None in
  exists underline,
    String.length underline = 23%nat /\
    (forall i c, String.get i underline = Some c -> c = "-"%char) /\
    release_notes_step (unreleased_release, Some "v2.0.0") "" w
    = (Ok ("" +:+ "Unreleased (YYYY-MM-DD)" +:+ newline +:+ underline
           +:+ newline +:+ newline
           +:+ diff_line "v2.0.0" unreleased_release
           +:+ newline +:+ "Nothing here yet." +:+ newline), w).
Proof.
  intros w.
  apply (heading_underlined unreleased_release (Some "v2.0.0") "" w
           "Nothing here yet.").
  reflexivity.
Defined.

(** ** A note file named after its version *)

Lemma substring_append_r s t :
  substring (String.length s) (String.length t) (s +:+ t) = t.
Proof.
  induction s as [|c s IH]; [apply substring_0_length|].
  rewrite append_cons. simpl. apply IH.
Qed.

Lemma endswith_append s suffix : Str.endswith (s +:+ suffix) suffix = true.
Proof.
  unfold Str.endswith. rewrite length_append.
  replace (String.length s + String.length suffix - String.length suffix)%nat
    with (String.length s) by lia.
  rewrite substring_append_r, String.eqb_refl.
  apply andb_true_intro. split; [apply Nat.leb_le; lia|done].
Qed.

(** The file name of a version and back: for a version [v] that is not
    empty and not [unreleased], the file [v.rst] is one that [glob]
    accepts, its stem is [v], and the release built from it has the
    version [v] and the tag [v] after the letter v, whatever dots [v]
    contains. *)
Theorem version_round_trip env v w timestamp time :
  v <> "" -> v <> "unreleased" ->
  committed_date env ("refs/tags/" +:+ "v" +:+ v) = Ok timestamp ->
  fromtimestamp env timestamp = Ok time ->
  Str.endswith (v +:+ ".rst") ".rst" = true /\
  Path.stem (v +:+ ".rst") = v /\
  Release_init env (v +:+ ".rst") w
  = (Ok {| release_notes_file := v +:+ ".rst"; version := v;
           git_tag := "v" +:+ v; date := format_date time |},
     add_events w [EvGitTag ("refs/tags/" +:+ "v" +:+ v)]).
Proof.
  intros Hne Hun%String.eqb_neq Hdate Htime.
  split; [apply endswith_append|]. split; [by apply stem_rst|].
  rewrite Release_init_run. unfold release_of, git_events, tag_ref.
  rewrite (stem_rst v Hne), Hun, Hdate, Htime. done.
Qed.

Lemma version_round_trip_witness :
  let env := Example.env Example.tags in
  let w := Example.world Example.notes None in
  Str.endswith ("1.0.1" +:+ ".rst") ".rst" = true /\
  Path.stem ("1.0.1" +:+ ".rst") = "1.0.1" /\
  Release_init env ("1.0.1" +:+ ".rst") w
  = (Ok {| release_notes_file := "1.0.1" +:+ ".rst"; version := "1.0.1";
           git_tag := "v" +:+ "1.0.1";
           date := format_date {| year := 2019; month := 10; day := 2 |} |},
     add_events w [EvGitTag ("refs/tags/" +:+ "v" +:+ "1.0.1")]).
Proof.
  intros env w.
  apply (version_round_trip env "1.0.1" w 1570000000%Z).
  - discriminate.
  - discriminate.
  - vm_compute. reflexivity.
  - vm_compute. reflexivity.
Defined.

(** * Further properties of the coverage badge *)

Lemma int_round_nan x : Prim2SF x = S754_nan -> int_round (x * 100)%float = Raise ValueError.
Proof.
  intros H. unfold int_round. by rewrite mul_spec, H.
Qed.

Lemma int_round_infinity x s :
  Prim2SF x = S754_infinity s -> int_round (x * 100)%float = Raise OverflowError.
Proof.
  intros H. unfold int_round. rewrite mul_spec, H.
  by destruct s.
Qed.

(** A coverage report that cannot be used stops the badge step before
    anything is rendered or written, and the world stays as it was: a
    report that does not exist fails the first assertion; a line rate
    that is not a number makes [round] raise [ValueError]; an infinite
    line rate makes it raise [OverflowError]. *)
Theorem coverage_report_unusable env output_path w :
  (python_coverage_xml (files w) = None ->
   build_python_coverage_badge env output_path w
   = (Raise (AssertionError "Run pytest with coverage before building documentation"),
      w)) /\
  (forall line_rate,
     python_coverage_xml (files w) = Some line_rate ->
     Prim2SF line_rate = S754_nan ->
     build_python_coverage_badge env output_path w = (Raise ValueError, w)) /\
  (forall line_rate s,
     python_coverage_xml (files w) = Some line_rate ->
     Prim2SF line_rate = S754_infinity s ->
     build_python_coverage_badge env output_path w = (Raise OverflowError, w)).
Proof.
  unfold build_python_coverage_badge. repeat split.
  - intros H. rewrite bind_run. unfold get_files at 1. by rewrite H.
  - intros line_rate Hxml Hnan. rewrite bind_run. unfold get_files at 1.
    by rewrite Hxml, (int_round_nan _ Hnan).
  - intros line_rate s Hxml Hinf. rewrite bind_run. unfold get_files at 1.
    by rewrite Hxml, (int_round_infinity _ _ Hinf).
Qed.

Lemma coverage_report_unusable_witness :
  let env := Example.env Example.tags in
  build_python_coverage_badge env "badges" (Example.world [] None)
  = (Raise (AssertionError "Run pytest with coverage before building documentation"),
     Example.world [] None) /\
  build_python_coverage_badge env "badges" (Example.world [] (Some nan))
  = (Raise ValueError, Example.world [] (Some nan)) /\
  build_python_coverage_badge env "badges" (Example.world [] (Some infinity))
  = (Raise OverflowError, Example.world [] (Some infinity)).
Proof.
  intros env. split; [|split].
  - apply (proj1 (coverage_report_unusable env "badges" (Example.world [] None))).
    reflexivity.
  - apply (proj1 (proj2 (coverage_report_unusable env "badges"
                           (Example.world [] (Some nan)))) nan);
      reflexivity.
  - apply (proj2 (proj2 (coverage_report_unusable env "badges"
                           (Example.world [] (Some infinity)))) infinity false);
      reflexivity.
Defined.

(** [int(round(x))] is the integer nearest to [x], and the even one of
    the two when [x] is halfway between them. For a finite float with
    the sign [s], the mantissa [m] and the exponent [e], whose value is
    [m * 2^e] with that sign: when [e] is not negative the result is the
    value itself; otherwise, with [d = 2^(-e)], the result [v] is within
    one half of [m / d], and is even when it is exactly one half away. *)
Theorem int_round_nearest x s m e :
  Prim2SF x = S754_finite s m e ->
  let value := if s then (- Zpos m)%Z else Zpos m in
  exists v,
    int_round x = Ok v /\
    ((0 <= e)%Z -> v = (value * 2 ^ e)%Z) /\
    ((e < 0)%Z ->
     (2 * Z.abs (v * 2 ^ (- e) - value) <= 2 ^ (- e))%Z /\
     ((2 * Z.abs (v * 2 ^ (- e) - value))%Z = (2 ^ (- e))%Z -> Z.even v = true)).
Proof.
  intros Hx value. unfold int_round. rewrite Hx.
  eexists. split; [reflexivity|].
  destruct e as [|p|p].
  - split; [intros _|lia]. subst value. destruct s; lia.
  - split; [intros _|lia]. subst value. destruct s; lia.
  - split; [lia|intros _]. change (- Z.neg p)%Z with (Z.pos p).
    set (d := (2 ^ Z.pos p)%Z).
    assert (Hd : (0 < d)%Z) by (apply Z.pow_pos_nonneg; lia).
    pose proof (Z.div_mod (Z.pos m) d ltac:(lia)) as Hdiv.
    pose proof (Z.mod_pos_bound (Z.pos m) d Hd) as Hmod.
    set (q := (Z.pos m / d)%Z) in *. set (r := (Z.pos m mod d)%Z) in *.
    assert (Hq : (0 <= q)%Z) by (apply Z.div_pos; lia).
    destruct (Z.compare_spec (2 * r) d) as [Heq|Hlt|Hgt].
    + destruct (Z.even q) eqn:Hev.
      * subst value. destruct s; rewrite ?Z.even_opp; split; [nia|done|nia|done].
      * assert (Hodd : Z.even (q + 1) = true).
        { rewrite Z.even_add, Hev. done. }
        subst value. destruct s; rewrite ?Z.even_opp; split; [nia|done|nia|done].
    + subst value. destruct s; split; try nia.
    + subst value. destruct s; split; try nia.
Qed.

Lemma int_round_nearest_witness :
  let value := Zpos 7107243161944064 in
  exists v,
    int_round (0.505 * 100)%float = Ok v /\
    ((0 <= -47)%Z -> v = (value * 2 ^ (-47))%Z) /\
    ((-47 < 0)%Z ->
     (2 * Z.abs (v * 2 ^ (- -47) - value) <= 2 ^ (- -47))%Z /\
     ((2 * Z.abs (v * 2 ^ (- -47) - value))%Z = (2 ^ (- -47))%Z ->
      Z.even v = true)).
Proof.
  apply (int_round_nearest (0.505 * 100)%float false 7107243161944064 (-47)).
  vm_compute. reflexivity.
Defined.

(** On the tie 50.5 the result is the even neighbour, 50: a line rate of
    0.505 does not pass the assertion on the minimum coverage. *)
Example int_round_tie : int_round (0.505 * 100)%float = Ok 50%Z.
Proof. vm_compute. reflexivity. Qed.

(** * Further properties of the other steps *)

Lemma badge_run env args w :
  badge env args w = (render_badge env args, add_events w [EvBadge args]).
Proof. unfold badge. run_monad. simpl. by destruct (render_badge env args). Qed.

Lemma create_file_run path contents w :
  create_file path contents w
  = (Ok tt, {| files := with_text_file (files w) path contents;
               events := events w ++ [EvCreateFile path] |}).
Proof. reflexivity. Qed.

Lemma check_call_run env cmd cwd w :
  check_call env cmd cwd w
  = (if fst (run_process env cmd cwd (files w)) then Ok tt
     else Raise (CalledProcessError cmd),
     {| files := snd (run_process env cmd cwd (files w));
        events := events w ++ [EvCheckCall cmd cwd] |}).
Proof.
  unfold check_call. run_monad. simpl.
  by destruct (run_process env cmd cwd (files w)) as [[] fs'].
Qed.

(** [build_sphinx] returns only when the sphinx process exited with zero
    and left [index.html] in the output directory; it then prints where
    the page is. When it raises, nothing is printed, and the exception
    is [CalledProcessError] with the command line of sphinx if the
    process failed, or the assertion on [index.html] if the process
    succeeded without writing the page. *)
Theorem build_sphinx_outcome env build_path output_path w :
  let run := build_sphinx env build_path output_path w in
  let cmd := [sys_executable env; "-m"; "sphinx"; "-EanWT";
              build_path; output_path] in
  let index_html := output_path // "index.html" in
  let exit_ok := fst (run_process env cmd (Some build_path) (files w)) in
  match fst run with
  | Ok _ =>
      exit_ok = true /\
      is_Some (text_files (files (snd run)) !! index_html) /\
      events (snd run)
      = events w ++ [EvCheckCall cmd (Some build_path);
                     EvPrint ("Open with:" +:+ newline +:+ "firefox "
                              +:+ index_html +:+ " &")]
  | Raise e =>
      events (snd run) = events w ++ [EvCheckCall cmd (Some build_path)] /\
      ((exit_ok = false /\ e = CalledProcessError cmd) \/
       (exit_ok = true /\ e = AssertionError index_html /\
        text_files (files (snd run)) !! index_html = None))
  end.
Proof.
  intros run cmd index_html exit_ok. subst run. unfold build_sphinx.
  rewrite bind_run, check_call_run. fold cmd. fold exit_ok.
  destruct exit_ok eqn:Hexit; [|cbn [fst snd events]; split; [done|by left]].
  unfold path_exists, print. run_monad. cbn [fst snd files events].
  fold index_html.
  destruct (text_files _ !! index_html) as [page|] eqn:Hpage.
  - rewrite bool_decide_eq_true_2 by (by eexists). unfold assert. run_monad.
    cbn [fst snd files events]. rewrite ?Hpage.
    split; [done|]. split; [by eexists|]. by rewrite <- app_assoc.
  - rewrite bool_decide_eq_false_2 by (by intros [? ?]). unfold assert. run_monad.
    cbn [fst snd files events]. rewrite ?Hpage.
    split; [done|]. right. done.
Qed.

(** [copy_python_coverage_to_html_output] copies nothing and changes
    nothing when the coverage report has no [index.html]: it raises the
    assertion. When the page exists it calls [copytree] once, from the
    report directory to [python_coverage_html] under the sphinx output,
    and ends as [copytree] ends. *)
Theorem copy_coverage_outcome env w :
  let src := TSFPGA_GENERATED env // "python_coverage_html" in
  let dst := SPHINX_HTML env // "python_coverage_html" in
  (text_files (files w) !! (src // "index.html") = None ->
   copy_python_coverage_to_html_output env w
   = (Raise (AssertionError "Run pytest with coverage before building documentation"),
      w)) /\
  (is_Some (text_files (files w) !! (src // "index.html")) ->
   copy_python_coverage_to_html_output env w
   = (fst (copy_tree env src dst (files w)),
      {| files := snd (copy_tree env src dst (files w));
         events := events w ++ [EvCopyTree src dst] |})).
Proof.
  intros src dst. unfold copy_python_coverage_to_html_output, path_exists, copytree.
  fold src. fold dst. run_monad. cbn [fst snd files events]. split.
  - intros H. rewrite bool_decide_eq_false_2; [done|]. rewrite H. by intros [? ?].
  - intros H. rewrite bool_decide_eq_true_2 by done. unfold assert. run_monad.
    cbn [fst snd files events].
    destruct (copy_tree env src dst (files w)) as [[[]|e] fs']; done.
Qed.

Lemma copy_coverage_outcome_witness :
  let env := Example.env Example.tags in
  let w := Example.world Example.notes None in
  copy_python_coverage_to_html_output env w
  = (Raise (AssertionError "Run pytest with coverage before building documentation"),
     w).
Proof.
  intros env w.
  apply (proj1 (copy_coverage_outcome env w)). reflexivity.
Defined.

(** When the first command of [main], the generation of the registers,
    exits with an error, [main] raises [CalledProcessError] with that
    command, with or without the flag, and nothing else is done: the
    only events are the deletion of the old output and the call. *)
Theorem main_stops_when_registers_fail env args w :
  let cmd := [sys_executable env; TSFPGA_EXAMPLES env // "build.py";
              "--generate-registers-only"] in
  let fs := delete_path env (SPHINX_HTML env) (files w) in
  fst (run_process env cmd None fs) = false ->
  main env args w
  = (Raise (CalledProcessError cmd),
     {| files := snd (run_process env cmd None fs);
        events := events w ++ [EvDelete (SPHINX_HTML env); EvCheckCall cmd None] |}).
Proof.
  intros cmd fs Hexit. unfold main.
  rewrite bind_run. unfold delete at 1. run_monad. cbn [fst snd files events].
  unfold generate_registers. fold cmd.
  pose proof (check_call_run env cmd None
                {| files := fs; events := events w ++ [EvDelete (SPHINX_HTML env)] |})
    as Hcall.
  cbn [files events] in Hcall. rewrite Hexit in Hcall.
  fold fs. unfold mbind, M_bind, bind in Hcall |- *. rewrite Hcall.
  by rewrite <- app_assoc.
Qed.

Lemma main_stops_when_registers_fail_witness :
  let env := Example.failing_env Example.tags in
  let w := Example.world Example.notes None in
  main env {| skip_coverage := false |} w
  = (Raise (CalledProcessError ["python3"; "/repo/examples/build.py";
                                "--generate-registers-only"]),
     {| files := files w;
        events := [EvDelete "/repo/generated/sphinx_html";
                   EvCheckCall ["python3"; "/repo/examples/build.py";
                                "--generate-registers-only"] None] |}).
Proof.
  intros env w.
  apply (main_stops_when_registers_fail env {| skip_coverage := false |} w).
  reflexivity.
Defined.

(** [build_information_badges] writes four badges under the directory
    it is given, [pip_install.svg], [license.svg], [gitlab.svg] and
    [website.svg]. When it returns, the four files exist. Whether it
    returns or raises, it leaves the release notes directory, the coverage
    report and every other text file as they were. *)
Theorem information_badges_written env output_path w :
  let run := build_information_badges env output_path w in
  let names := ["pip_install.svg"; "license.svg"; "gitlab.svg"; "website.svg"] in
  release_notes_dir (files (snd run)) = release_notes_dir (files w) /\
  python_coverage_xml (files (snd run)) = python_coverage_xml (files w) /\
  (forall path,
     (forall name, name ∈ names -> path <> output_path // name) ->
     text_files (files (snd run)) !! path = text_files (files w) !! path) /\
  (fst run = Ok tt ->
   forall name, name ∈ names ->
     is_Some (text_files (files (snd run)) !! (output_path // name))).
Proof.
  intros run names. subst run. unfold build_information_badges.
  assert (Hother : forall path,
    (forall name, name ∈ names -> path <> output_path // name) ->
    forall name, name ∈ names -> output_path // name <> path).
  { intros path H name Hname Heq. by apply (H name Hname). }
  assert (H1 : "pip_install.svg" ∈ names) by (apply (bool_decide_unpack _); vm_compute; exact I).
  assert (H2 : "license.svg" ∈ names) by (apply (bool_decide_unpack _); vm_compute; exact I).
  assert (H3 : "gitlab.svg" ∈ names) by (apply (bool_decide_unpack _); vm_compute; exact I).
  assert (H4 : "website.svg" ∈ names) by (apply (bool_decide_unpack _); vm_compute; exact I).
  rewrite bind_run, badge_run.
  destruct (render_badge env _) as [svg1|e]; cbv beta iota;
    [|cbn [fst snd files add_events]; repeat split; done].
  rewrite bind_run, create_file_run. cbv beta iota.
  rewrite bind_run, badge_run.
  destruct (render_badge env _) as [svg2|e]; cbv beta iota.
  2:{ cbn [fst snd files add_events with_text_file text_files
           release_notes_dir python_coverage_xml].
      repeat split; try done.
      intros path Hpath. rewrite lookup_insert_ne; [done|by apply Hother]. }
  rewrite bind_run, create_file_run. cbv beta iota.
  rewrite bind_run, badge_run.
  destruct (render_badge env _) as [svg3|e]; cbv beta iota.
  2:{ cbn [fst snd files add_events with_text_file text_files
           release_notes_dir python_coverage_xml].
      repeat split; try done.
      intros path Hpath. rewrite !lookup_insert_ne; [done|by apply Hother..]. }
  rewrite bind_run, create_file_run. cbv beta iota.
  rewrite bind_run, badge_run.
  destruct (render_badge env _) as [svg4|e]; cbv beta iota.
  2:{ cbn [fst snd files add_events with_text_file text_files
           release_notes_dir python_coverage_xml].
      repeat split; try done.
      intros path Hpath. rewrite !lookup_insert_ne; [done|by apply Hother..]. }
  rewrite create_file_run.
  cbn [fst snd files add_events with_text_file text_files
       release_notes_dir python_coverage_xml].
  repeat split; try done.
  - intros path Hpath. rewrite !lookup_insert_ne; [done|by apply Hother..].
  - intros _ name Hname. rewrite !lookup_insert_is_Some'.
    subst names. repeat (apply elem_of_cons in Hname as [->|Hname]); [auto..|].
    by apply elem_of_nil in Hname.
Qed.

Lemma information_badges_written_witness :
  let env := Example.env Example.tags in
  let w := Example.world Example.notes None in
  let run := build_information_badges env "/repo/generated/sphinx_html/badges" w in
  fst run = Ok tt /\
  is_Some (text_files (files (snd run))
           !! ("/repo/generated/sphinx_html/badges" // "gitlab.svg")) /\
  text_files (files (snd run)) !! "/repo/generated/sphinx/release_notes.rst"
  = text_files (files w) !! "/repo/generated/sphinx/release_notes.rst".
Proof.
  intros env w run.
  assert (Hrun : fst run = Ok tt) by (vm_compute; reflexivity).
  destruct (information_badges_written env "/repo/generated/sphinx_html/badges" w)
    as (_ & _ & Hframe & Hfiles).
  split; [exact Hrun|]. split.
  - apply (Hfiles Hrun). apply (bool_decide_unpack _). vm_compute. exact I.
  - apply Hframe. intros name Hname.
    repeat (apply elem_of_cons in Hname as [->|Hname]);
      [discriminate..|by apply elem_of_nil in Hname].
Defined.

Lemma release_notes_all_or_nothing_witness :
  let env := Example.env Example.tags in
  let w := Example.world Example.notes None in
  let run := generate_release_notes env w in
  release_notes_dir (files (snd run)) = Example.notes /\
  text_files (files (snd run)) !! "/repo/generated/sphinx/index.rst" = None.
Proof.
  intros env w run.
  destruct (release_notes_all_or_nothing env w) as (Hdir & _ & Hframe & _).
  split; [exact Hdir|].
  fold run in Hframe. rewrite Hframe; [reflexivity|discriminate].
Defined.

(** [generate_sphinx_index] asks for the readme without the link to the
    website and with the check that [readme.rst] is in sync. When that
    raises, the exception goes on to the caller and no index is written:
    the files are as before. Otherwise [index.rst] holds the text
    returned, and no other file is touched. *)
Theorem sphinx_index_outcome env w :
  let index_rst := TSFPGA_GENERATED env // "sphinx" // "index.rst" in
  match readme_rst env false true (files w) with
  | Raise e =>
      generate_sphinx_index env w = (Raise e, add_events w [EvReadme])
  | Ok rst =>
      generate_sphinx_index env w
      = (Ok tt, {| files := with_text_file (files w) index_rst rst;
                   events := events w ++ [EvReadme; EvCreateFile index_rst] |})
  end.
Proof.
  intros index_rst. unfold generate_sphinx_index, get_readme_rst.
  fold index_rst. run_monad. cbn [fst snd files events].
  destruct (readme_rst env false true (files w)) as [rst|e];
    unfold lift; run_monad; cbn [fst snd files events]; [|done].
  unfold create_file, with_text_file. run_monad. cbn [fst snd files events].
  by rewrite <- app_assoc.
Qed.

(** * The flag of the command line *)

Lemma bind_assoc_run {A B C} (m : M A) (f : A -> M B) (g : B -> M C) w :
  ((m ≫= f) ≫= g) w = (m ≫= (fun a => f a ≫= g)) w.
Proof. rewrite !bind_run. by destruct (m w) as [[a|e] w1]. Qed.

Lemma bind_ext_run {A B} (m : M A) (f g : A -> M B) w :
  (forall a w1, m w = (Ok a, w1) -> f a w1 = g a w1) ->
  (m ≫= f) w = (m ≫= g) w.
Proof.
  intros H. rewrite !bind_run.
  destruct (m w) as [[a|e] w1]; [by apply H|done].
Qed.

Lemma bind_ret_run (m : M unit) w : (m ≫= fun _ => ret tt) w = m w.
Proof. rewrite bind_run. by destruct (m w) as [[[]|e] w1]. Qed.

(** A sequence that returns: its first part returned, and the rest
    returned from there. *)
Lemma bind_Ok {A B} (m : M A) (k : A -> M B) w b w2 :
  (m ≫= k) w = (Ok b, w2) ->
  exists a w1, m w = (Ok a, w1) /\ k a w1 = (Ok b, w2).
Proof.
  rewrite bind_run. destruct (m w) as [[a|e] w1]; [|done].
  intros H. by exists a, w1.
Qed.

(** [create_directory] returns the path it is given. *)
Lemma create_directory_returns env path w r w1 :
  create_directory env path w = (Ok r, w1) -> r = path.
Proof. unfold create_directory. run_monad. simpl. by intros [= <- _]. Qed.

(** ** The events of each step when it returns *)

Lemma delete_Ok env path w r w1 :
  delete env path w = (Ok r, w1) ->
  r = path /\ events w1 = events w ++ [EvDelete path].
Proof. unfold delete. run_monad. simpl. by intros [= <- <-]. Qed.

Lemma create_directory_Ok env path w r w1 :
  create_directory env path w = (Ok r, w1) ->
  r = path /\ events w1 = events w ++ [EvCreateDirectory path].
Proof. unfold create_directory. run_monad. simpl. by intros [= <- <-]. Qed.

Lemma check_call_Ok env cmd cwd w r w1 :
  check_call env cmd cwd w = (Ok r, w1) ->
  events w1 = events w ++ [EvCheckCall cmd cwd].
Proof. rewrite check_call_run. intros [= H <-]. reflexivity. Qed.

Lemma create_file_Ok path contents w r w1 :
  create_file path contents w = (Ok r, w1) ->
  events w1 = events w ++ [EvCreateFile path].
Proof. rewrite create_file_run. intros [= <- <-]. reflexivity. Qed.

Lemma badge_Ok env args w svg w1 :
  badge env args w = (Ok svg, w1) -> events w1 = events w ++ [EvBadge args].
Proof. rewrite badge_run. intros [= H <-]. reflexivity. Qed.

Lemma lookups_refs env l : exists refs, lookups env l = map EvGitTag refs.
Proof.
  induction l as [|f l [refs IH]]; simpl; [by exists []|].
  unfold git_events. destruct (String.eqb _ _); simpl.
  - destruct (release_of env f); [by exists refs|by exists []].
  - destruct (release_of env f); [|by exists [tag_ref f]].
    exists (tag_ref f :: refs). simpl. by rewrite IH.
Qed.

Lemma generate_release_notes_Ok env w r w1 :
  generate_release_notes env w = (Ok r, w1) ->
  exists refs,
    events w1
    = events w ++ map EvGitTag refs
      ++ [EvCreateFile (TSFPGA_GENERATED env // "sphinx" // "release_notes.rst")].
Proof.
  rewrite generate_release_notes_run.
  destruct (lookups_refs env (note_list (release_notes_dir (files w))))
    as [refs ->].
  destruct (assembled env _); [|done]. intros [= <- <-].
  exists refs. reflexivity.
Qed.

Lemma generate_apidoc_Ok env w r w1 :
  generate_apidoc env w = (Ok r, w1) ->
  events w1
  = events w
    ++ [EvDelete (TSFPGA_GENERATED env // "sphinx" // "apidoc");
        EvCheckCall [sys_executable env; "-m"; "sphinx.ext.apidoc"; "-o";
                     TSFPGA_GENERATED env // "sphinx" // "apidoc";
                     "tsfpga"; "**/test/**"] (Some (REPO_ROOT env))].
Proof.
  unfold generate_apidoc, run_apidoc.
  intros (p & w0 & [-> H0]%delete_Ok & H1%check_call_Ok)%bind_Ok.
  by rewrite H1, H0, <- app_assoc.
Qed.

Lemma generate_sphinx_index_Ok env w r w1 :
  generate_sphinx_index env w = (Ok r, w1) ->
  events w1
  = events w
    ++ [EvReadme; EvCreateFile (TSFPGA_GENERATED env // "sphinx" // "index.rst")].
Proof.
  unfold generate_sphinx_index, get_readme_rst.
  intros (rst & w0 & H0 & H1%create_file_Ok)%bind_Ok.
  rewrite H1. revert H0. run_monad. cbn [fst snd files events].
  destruct (readme_rst env false true (files w)); unfold lift; run_monad;
    [|done].
  intros [= H <-]. cbn [events]. by rewrite <- app_assoc.
Qed.

Lemma build_sphinx_Ok env build_path output_path w r w1 :
  build_sphinx env build_path output_path w = (Ok r, w1) ->
  events w1
  = events w
    ++ [EvCheckCall [sys_executable env; "-m"; "sphinx"; "-EanWT";
                     build_path; output_path] (Some build_path);
        EvPrint ("Open with:
firefox " +:+ (output_path // "index.html") +:+ " &")].
Proof.
  unfold build_sphinx.
  intros (r0 & w0 & H0%check_call_Ok & H1)%bind_Ok.
  apply bind_Ok in H1 as (found & w2 & H2 & H3).
  apply bind_Ok in H3 as (r3 & w3 & H3 & H4).
  revert H2 H3 H4. unfold path_exists, print, assert. run_monad.
  intros [= Hf <-]. destruct found; [|done]. intros H3 H4.
  injection H3 as _ <-. injection H4 as _ <-.
  cbn [events]. rewrite H0, <- app_assoc. reflexivity.
Qed.

Lemma build_information_badges_Ok env output_path w r w1 :
  build_information_badges env output_path w = (Ok r, w1) ->
  events w1
  = events w
    ++ [EvBadge {| left_text := "pip install"; right_text := "tsfpga";
                   left_color := None; right_color := "blue";
                   logo := None; embed_logo := false;
                   left_link := None; right_link := None |};
        EvCreateFile (output_path // "pip_install.svg");
        EvBadge {| left_text := "license"; right_text := "BSD 3-Clause";
                   left_color := None; right_color := "blue";
                   logo := None; embed_logo := false;
                   left_link := None; right_link := None |};
        EvCreateFile (output_path // "license.svg");
        EvBadge {| left_text := ""; right_text := "tsfpga/tsfpga";
                   left_color := Some "grey"; right_color := "grey";
                   logo := Some "https://about.gitlab.com/images/press/press-kit-icon.svg";
                   embed_logo := true;
                   left_link := None; right_link := None |};
        EvCreateFile (output_path // "gitlab.svg");
        EvBadge {| left_text := ""; right_text := "tsfpga.com";
                   left_color := Some "grey"; right_color := "grey";
                   logo := Some "https://design.firefox.com/product-identity/firefox/firefox/firefox-logo.svg";
                   embed_logo := true;
                   left_link := None; right_link := None |};
        EvCreateFile (output_path // "website.svg")].
Proof.
  unfold build_information_badges.
  intros (s1 & w01 & B1%badge_Ok & H)%bind_Ok.
  apply bind_Ok in H as (r1 & w02 & F1%create_file_Ok & H).
  apply bind_Ok in H as (s2 & w03 & B2%badge_Ok & H).
  apply bind_Ok in H as (r2 & w04 & F2%create_file_Ok & H).
  apply bind_Ok in H as (s3 & w05 & B3%badge_Ok & H).
  apply bind_Ok in H as (r3 & w06 & F3%create_file_Ok & H).
  apply bind_Ok in H as (s4 & w07 & B4%badge_Ok & F4%create_file_Ok).
  rewrite F4, B4, F3, B3, F2, B2, F1, B1. by rewrite <- !app_assoc.
Qed.

Lemma build_python_coverage_badge_Ok env output_path w r w1 :
  build_python_coverage_badge env output_path w = (Ok r, w1) ->
  exists p,
    (50 < p)%Z /\
    events w1
    = events w
      ++ [EvBadge {| left_text := "line coverage";
                     right_text := Str.of_Z p +:+ "%";
                     left_color := None;
                     right_color := if (80 <? p)%Z then "green" else "red";
                     logo := Some (TSFPGA_DOC env // "sphinx"
                                   // "Python-logo-notext.svg");
                     embed_logo := true;
                     left_link := Some "https://tsfpga.com/python_coverage_html";
                     right_link := Some "https://tsfpga.com/python_coverage_html" |};
          EvCreateFile (output_path // "python_coverage.svg")].
Proof.
  unfold build_python_coverage_badge. rewrite bind_run. unfold get_files at 1.
  destruct (python_coverage_xml (files w)) as [line_rate|]; [|done].
  intros (p & w0 & H0 & H)%bind_Ok.
  apply bind_Ok in H as (r1 & w2 & H1 & H).
  apply bind_Ok in H as (svg & w3 & B%badge_Ok & F%create_file_Ok).
  revert H0 H1. unfold lift, assert. run_monad.
  destruct (int_round _); [|done]. intros [= -> <-].
  destruct (50 <? p)%Z eqn:Hp; [|done]. intros [= <- <-].
  exists p. split; [by apply Z.ltb_lt|].
  rewrite F, B, <- app_assoc. reflexivity.
Qed.

Lemma copy_python_coverage_Ok env w r w1 :
  copy_python_coverage_to_html_output env w = (Ok r, w1) ->
  events w1
  = events w
    ++ [EvCopyTree (TSFPGA_GENERATED env // "python_coverage_html")
                   (TSFPGA_GENERATED env // "sphinx_html" // "python_coverage_html")].
Proof.
  unfold copy_python_coverage_to_html_output.
  intros (found & w0 & H0 & H)%bind_Ok.
  apply bind_Ok in H as (r1 & w2 & H1 & H2).
  revert H0 H1 H2. unfold path_exists, assert, copytree. run_monad.
  cbn [fst snd files events].
  intros [= Hf <-]. destruct found; [|done]. intros [= <- <-].
  destruct (copy_tree env _ _ (files w)) as [[[]|e] fs']; [|done].
  intros [= <- <-]. reflexivity.
Qed.

(** The steps of [main] before the test of the flag. *)
Lemma documentation_steps_Ok env w r w1 :
  main env {| skip_coverage := true |} w = (Ok r, w1) ->
  exists refs, events w1 = events w ++ documentation_events env refs.
Proof.
  unfold main. cbn [skip_coverage].
  intros (r1 & w01 & [_ E1]%delete_Ok & H)%bind_Ok.
  apply bind_Ok in H as (r2 & w02 & E2%check_call_Ok & H).
  apply bind_Ok in H as (r3 & w03 & [refs E3]%generate_release_notes_Ok & H).
  apply bind_Ok in H as (r4 & w04 & E4%generate_apidoc_Ok & H).
  apply bind_Ok in H as (r5 & w05 & E5%generate_sphinx_index_Ok & H).
  apply bind_Ok in H as (r6 & w06 & E6%build_sphinx_Ok & H).
  apply bind_Ok in H as (r7 & w07 & [-> E7]%create_directory_Ok & H).
  apply bind_Ok in H as (r8 & w08 & E8%build_information_badges_Ok & H).
  injection H as _ <-.
  exists refs. rewrite E8, E7, E6, E5, E4, E3, E2, E1.
  unfold documentation_events, SPHINX_HTML.
  rewrite <- !app_assoc. reflexivity.
Qed.

(** C8. With the flag, [main] is the sequence of the other steps and
    nothing else: the old pages are deleted, then registers, release notes,
    apidoc, index and the sphinx build run, the badge directory is made and
    the information badges are written.  Without the flag, [main] does the
    same, with the same outcome of every step, and then, if none of them
    raised, runs the coverage badge step and the step that copies the
    coverage report.  With the flag no event of a coverage step is
    recorded.  When the build with the flag returns, what it has done is
    exactly the events of the other steps, in their order; when the build
    without the flag returns, it has done the same followed by the coverage
    badge, for a percentage above 50 and with the colour of that
    percentage, and the copy of the coverage report. *)
Theorem skip_coverage_flag env w :
  main env {| skip_coverage := true |} w
  = (delete env (SPHINX_HTML env);;
     generate_registers env;;
     generate_release_notes env;;
     generate_apidoc env;;
     generate_sphinx_index env;;
     build_sphinx env (TSFPGA_DOC env // "sphinx") (SPHINX_HTML env);;
     badges_path ← create_directory env (SPHINX_HTML env // "badges");
     build_information_badges env badges_path) w /\
  main env {| skip_coverage := false |} w
  = (main env {| skip_coverage := true |} ≫= fun _ =>
     build_python_coverage_badge env (SPHINX_HTML env // "badges") ≫= fun _ =>
     copy_python_coverage_to_html_output env) w /\
  (exists evs,
     events (snd (main env {| skip_coverage := true |} w)) = events w ++ evs /\
     forallb other_event evs = true) /\
  (fst (main env {| skip_coverage := true |} w) = Ok tt ->
   exists refs,
     events (snd (main env {| skip_coverage := true |} w))
     = events w ++ documentation_events env refs) /\
  (fst (main env {| skip_coverage := false |} w) = Ok tt ->
   exists refs p,
     (50 < p)%Z /\
     events (snd (main env {| skip_coverage := false |} w))
     = events w ++ documentation_events env refs
       ++ coverage_events env p (if (80 <? p)%Z then "green" else "red")).
Proof.
  assert (Hflag : main env {| skip_coverage := false |} w
    = (main env {| skip_coverage := true |} ≫= fun _ =>
       build_python_coverage_badge env (SPHINX_HTML env // "badges") ≫= fun _ =>
       copy_python_coverage_to_html_output env) w).
  { unfold main. cbn [skip_coverage]. symmetry.
    do 6 (rewrite bind_assoc_run; apply bind_ext_run; intros ? ? _).
    rewrite bind_assoc_run. apply bind_ext_run.
    intros badges_path w' ->%create_directory_returns.
    rewrite bind_assoc_run. apply bind_ext_run. intros ? ? _.
    reflexivity. }
  split; [|split; [exact Hflag|split; [|split]]].
  - unfold main. cbn [skip_coverage].
    do 7 (apply bind_ext_run; intros ? ? _).
    apply bind_ret_run.
  - apply (emits_only_bind other_event); [apply emits_delete|intros].
    apply emits_only_bind; [apply emits_generate_registers|intros].
    apply emits_only_bind; [apply emits_generate_release_notes|intros].
    apply emits_only_bind; [apply emits_generate_apidoc|intros].
    apply emits_only_bind; [apply emits_generate_sphinx_index|intros].
    apply emits_only_bind; [apply emits_build_sphinx|intros].
    apply emits_only_bind; [apply emits_create_directory|intros].
    apply emits_only_bind; [apply emits_build_information_badges|intros].
    apply emits_only_ret.
  - destruct (main env {| skip_coverage := true |} w) as [r w1] eqn:E.
    cbn [fst snd]. intros ->. by apply (documentation_steps_Ok env w tt).
  - rewrite Hflag.
    destruct ((main env {| skip_coverage := true |} ≫= _) w) as [r w1] eqn:E.
    cbn [fst snd]. intros ->.
    apply bind_Ok in E as (r0 & w0 & [refs E0]%documentation_steps_Ok & E).
    apply bind_Ok in E as (r2 & w2 & (p & Hp & E2)%build_python_coverage_badge_Ok
                           & E3%copy_python_coverage_Ok).
    exists refs, p. split; [done|].
    rewrite E3, E2, E0. unfold coverage_events, SPHINX_HTML.
    rewrite <- !app_assoc. reflexivity.
Qed.

(** The example repository: with the flag and no coverage report the build
    returns and has run the other steps; without the flag and with a
    report of 85 percent it returns and has run the coverage steps too. *)
Lemma skip_coverage_flag_witness :
  let env := Example.env Example.tags in
  let w := Example.world Example.notes None in
  let wc := Example.world_with_coverage in
  (fst (main env {| skip_coverage := true |} w) = Ok tt /\
   exists refs,
     events (snd (main env {| skip_coverage := true |} w))
     = events w ++ documentation_events env refs) /\
  (fst (main env {| skip_coverage := false |} wc) = Ok tt /\
   exists refs p,
     (50 < p)%Z /\
     events (snd (main env {| skip_coverage := false |} wc))
     = events wc ++ documentation_events env refs
       ++ coverage_events env p (if (80 <? p)%Z then "green" else "red")).
Proof.
  intros env w wc.
  assert (H1 : fst (main env {| skip_coverage := true |} w) = Ok tt)
    by (vm_compute; reflexivity).
  assert (H2 : fst (main env {| skip_coverage := false |} wc) = Ok tt)
    by (vm_compute; reflexivity).
  split; (split; [assumption|]).
  - exact (proj1 (proj2 (proj2 (proj2 (skip_coverage_flag env w)))) H1).
  - exact (proj2 (proj2 (proj2 (proj2 (skip_coverage_flag env wc)))) H2).
Defined.

(** With no coverage report at all, the build with the flag succeeds and
    the build without it stops at the assertion of the badge step. *)
Example main_without_coverage_report :
  let env := Example.env Example.tags in
  let w := Example.world Example.notes None in
  fst (main env {| skip_coverage := true |} w) = Ok tt /\
  fst (main env {| skip_coverage := false |} w)
  = Raise (AssertionError "Run pytest with coverage before building documentation").
Proof. split; vm_compute; reflexivity. Qed.
